(** * Request validation, content safety and retry orchestration

    A shallow embedding of the AI service's validation and error-handling
    layer:

    - [utils/error_handler.py]: the [retry] decorator, [_is_retryable_error],
      the two provider error handlers and [AIServiceError];
    - [models/story_request.py]: the module's top level with its two
      [re.compile] calls, and [StoryRequest] with its five validators;
    - [models/illustration_request.py]: [IllustrationRequest] and its
      validators;
    - [utils/validators.py]: [ContentValidator], the [timeout] decorator
      and the validation utilities;
    - [services/stable_diffusion_service.py]: [format_prompt] and
      [generate_illustration].

    Conventions.  A Python [str] is the list of its code points; a Python
    [int] is a [Z]; a [float] that only ever holds dyadic multiples of the
    configured delay, or a quotient of two small integers compared with
    [0.5] and [2.0], is a [Q] (both uses are exact in binary floating
    point; where the interpreter raises instead, for a power of two that
    no float holds or a duration [time.sleep] rejects, the exception is
    modelled).  A function that may raise returns a [Result]; code that
    reads the clock, draws a UUID or sleeps is a state transformer over a
    [World].  Logging and the telemetry fields of [AIServiceError]
    ([timestamp], [performance_metrics]) are not observable by any
    validator and are left out of the exception value. *)

From Stdlib Require Import List ZArith NArith QArith String Ascii Bool Lia.
From Stdlib Require Import DecimalString Qpower.
Import ListNotations.
Close Scope Q_scope.

Set Implicit Arguments.
Set Warnings "-register-all".

(* ================================================================== *)
(** * Python strings *)
(* ================================================================== *)

Module PyStr.

(** A code point and a string of code points. *)
Definition char := N.
Definition str := list char.

(** The code points of an ASCII literal of the program text. *)
Definition u (s : string) : str := map N_of_ascii (list_ascii_of_string s).

Fixpoint str_eqb (a b : str) : bool :=
  match a, b with
  | [], [] => true
  | x :: a', y :: b' => N.eqb x y && str_eqb a' b'
  | _, _ => false
  end.

(** [len(s)] *)
Definition len (s : str) : Z := Z.of_nat (List.length s).

(** [str(n)] for an integer, as used by f-strings. *)
Definition str_of_Z (z : Z) : str := u (NilZero.string_of_int (Z.to_int z)).

(** The Unicode character database is a collaborator of the program, not
    part of it.  Its behaviour on ASCII is fixed below; its behaviour on
    everything else is this table, over which every definition and
    theorem is parametric.

    - [ud_nfkc], [ud_lower]: [unicodedata.normalize('NFKC', s)] and
      [s.lower()] for a string with at least one non-ASCII code point;
    - [ud_category_C]: whether [unicodedata.category(c)] starts with [C];
    - [ud_isspace]: [c.isspace()], the separator test of [str.split()]
      and [str.strip()];
    - [ud_re_space]: the class [\s] beyond [ \t\n\r\f\v];
    - [ud_re_ieq c p]: whether text character [c] matches pattern
      literal [p] under [(?i)]. *)
Record UnicodeData := {
  ud_nfkc : str -> str;
  ud_lower : str -> str;
  ud_category_C : char -> bool;
  ud_isspace : char -> bool;
  ud_re_space : char -> bool;
  ud_re_ieq : char -> char -> bool
}.

Local Open Scope N_scope.

Definition is_ascii (c : char) : bool := c <? 128.

Definition ascii_upper_case (c : char) : bool := (65 <=? c) && (c <=? 90).
Definition ascii_lower_case (c : char) : bool := (97 <=? c) && (c <=? 122).
Definition ascii_lower (c : char) : char :=
  if ascii_upper_case c then c + 32 else c.

Section WithUnicode.
Variable U : UnicodeData.

(** [s.lower()] *)
Definition lower (s : str) : str :=
  if forallb is_ascii s then map ascii_lower s else ud_lower U s.

(** [unicodedata.normalize('NFKC', s)]: ASCII text is inert. *)
Definition nfkc (s : str) : str :=
  if forallb is_ascii s then s else ud_nfkc U s.

(** [unicodedata.category(c)[0] == 'C'] *)
Definition category_is_C (c : char) : bool :=
  if is_ascii c then (c <? 32) || (c =? 127) else ud_category_C U c.

(** [c.isspace()]: in ASCII, TAB..CR, FS..US and SPACE. *)
Definition isspace (c : char) : bool :=
  if is_ascii c
  then ((9 <=? c) && (c <=? 13)) || ((28 <=? c) && (c <=? 32))
  else ud_isspace U c.

(** [\s] *)
Definition re_space (c : char) : bool :=
  if ((9 <=? c) && (c <=? 13)) || (c =? 32) then true else ud_re_space U c.

(** One character of text against one literal of a [(?i)] pattern. *)
Definition re_ieq (c p : char) : bool :=
  if is_ascii c && is_ascii p then ascii_lower c =? ascii_lower p
  else ud_re_ieq U c p.

(** [s.split()]: maximal runs of non-space characters.  [word] holds
    the run being read, last character first. *)
Fixpoint split_from (word : str) (s : str) : list str :=
  match s with
  | [] => match word with [] => [] | _ => [rev word] end
  | c :: s' =>
      if isspace c
      then match word with
           | [] => split_from [] s'
           | _ => rev word :: split_from [] s'
           end
      else split_from (c :: word) s'
  end.

Definition split (s : str) : list str := split_from [] s.

Fixpoint lstrip (s : str) : str :=
  match s with
  | c :: s' => if isspace c then lstrip s' else s
  | [] => []
  end.

(** [s.strip()] *)
Definition strip (s : str) : str := rev (lstrip (rev (lstrip s))).

End WithUnicode.

(** [sep.join(words)] *)
Fixpoint join (sep : str) (words : list str) : str :=
  match words with
  | [] => []
  | [w] => w
  | w :: ws => w ++ sep ++ join sep ws
  end.

(** [s.replace(old, new)] for a one-character [old]. *)
Definition replace (old : char) (new : str) (s : str) : str :=
  flat_map (fun c => if c =? old then new else [c]) s.

(** Does [w] match a prefix of [t], character by character under [eqb]?
    The first argument of [eqb] is the text character. *)
Fixpoint starts_with_by (eqb : char -> char -> bool) (w t : str) : bool :=
  match w, t with
  | [], _ => true
  | _ :: _, [] => false
  | p :: w', c :: t' => eqb c p && starts_with_by eqb w' t'
  end.

(** Does [w] occur in [t] at some offset? *)
Fixpoint occurs_by (eqb : char -> char -> bool) (w t : str) : bool :=
  starts_with_by eqb w t ||
  match t with
  | [] => false
  | _ :: t' => occurs_by eqb w t'
  end.

(** [w in t] *)
Definition contains (w t : str) : bool := occurs_by N.eqb w t.

(** A table with no entry outside ASCII, for running the definitions on
    ASCII inputs, where no definition consults the table. *)
Definition ascii_only : UnicodeData :=
  {| ud_nfkc := fun s => s;
     ud_lower := fun s => s;
     ud_category_C := fun _ => false;
     ud_isspace := fun _ => false;
     ud_re_space := fun _ => false;
     ud_re_ieq := N.eqb |}.

(** The fullwidth Latin letters, U+FF21..U+FF3A and U+FF41..U+FF5A. *)
Definition fullwidth_capital (c : char) : bool :=
  (65313 <=? c) && (c <=? 65338).
Definition fullwidth_small (c : char) : bool :=
  (65345 <=? c) && (c <=? 65370).

(** The small letter of a letter of either alphabet. *)
Definition small_letter (c : char) : char :=
  if ascii_upper_case c || fullwidth_capital c then c + 32 else c.

(** The table for text made of ASCII and fullwidth Latin letters, for
    running the definitions on such text: NFKC maps a fullwidth letter to
    its ASCII letter, [lower] maps a capital of either alphabet to its
    small letter, and a fullwidth letter matches under [(?i)] the
    fullwidth letters of either case and no ASCII letter. *)
Definition fullwidth_latin : UnicodeData :=
  {| ud_nfkc :=
       map (fun c => if fullwidth_capital c || fullwidth_small c
                     then c - 65248 else c);
     ud_lower := map small_letter;
     ud_category_C := fun _ => false;
     ud_isspace := fun _ => false;
     ud_re_space := fun _ => false;
     ud_re_ieq := fun c p => small_letter c =? small_letter p |}.

End PyStr.
Import PyStr.

(* ================================================================== *)
(** * Python values, dictionaries, results *)
(* ================================================================== *)

(** The values that appear in [details] maps and in [to_dict]. *)
Inductive PyVal :=
| VNone
| VInt (z : Z)
| VFloat (q : Q)
| VStr (s : str)
| VList (l : list PyVal)
| VDict (d : list (string * PyVal)).

(** A [dict] with literal keys, in insertion order. *)
Definition Dict := list (string * PyVal).

Fixpoint dict_get (d : Dict) (k : string) : option PyVal :=
  match d with
  | [] => None
  | (k', v) :: d' => if String.eqb k k' then Some v else dict_get d' k
  end.

(** [d.get(k, default)] *)
Definition dict_get_default (d : Dict) (k : string) (default : PyVal) : PyVal :=
  match dict_get d k with Some v => v | None => default end.

(* ================================================================== *)
(** * utils/error_handler.py *)
(* ================================================================== *)

(** The exception classes the module names, and any other class by name.
    The provider packages are collaborators: what matters of a fault is its
    class and the classes it inherits from. *)
Inductive ExcClass :=
| openai_RateLimitError
| openai_ServiceUnavailableError
| openai_APIConnectionError
| openai_InvalidRequestError
| openai_APIError
| openai_Timeout
| openai_ContentFilterError
| stability_RateLimitError
| stability_ServerError
| stability_InvalidRequestError
| stability_ResourceExhaustedError
| AIServiceError_class
| OtherClass (name : string).

Definition ExcClass_eqb (a b : ExcClass) : bool :=
  match a, b with
  | openai_RateLimitError, openai_RateLimitError
  | openai_ServiceUnavailableError, openai_ServiceUnavailableError
  | openai_APIConnectionError, openai_APIConnectionError
  | openai_InvalidRequestError, openai_InvalidRequestError
  | openai_APIError, openai_APIError
  | openai_Timeout, openai_Timeout
  | openai_ContentFilterError, openai_ContentFilterError
  | stability_RateLimitError, stability_RateLimitError
  | stability_ServerError, stability_ServerError
  | stability_InvalidRequestError, stability_InvalidRequestError
  | stability_ResourceExhaustedError, stability_ResourceExhaustedError
  | AIServiceError_class, AIServiceError_class => true
  | OtherClass n, OtherClass m => String.eqb n m
  | _, _ => false
  end.

(** An exception value: [type(e)], the proper ancestors of that class,
    [str(e)], and for [AIServiceError] its [details] and [request_id]
    ([message] is [str(e)], set by [super().__init__(message)]). *)
Record PyExc := {
  exc_type : ExcClass;
  exc_bases : list ExcClass;
  exc_str : str;
  exc_details : Dict;
  exc_request_id : str
}.

(** [AIServiceError(message=..., details=..., request_id=...)] *)
Definition AIServiceError (message : str) (details : Dict) (request_id : str)
  : PyExc :=
  {| exc_type := AIServiceError_class;
     exc_bases := [OtherClass "Exception"];
     exc_str := message;
     exc_details := details;
     exc_request_id := request_id |}.

(** [isinstance(e, classes)] *)
Definition isinstance (e : PyExc) (classes : list ExcClass) : bool :=
  existsb (fun c => existsb (ExcClass_eqb c) (exc_type e :: exc_bases e))
          classes.

(** The outcome of a call: a value or a raised exception. *)
Inductive Result (A : Type) :=
| Ok (a : A)
| Raise (e : PyExc).
Arguments Ok {A} a.
Arguments Raise {A} e.

Definition bind {A B} (r : Result A) (k : A -> Result B) : Result B :=
  match r with
  | Ok a => k a
  | Raise e => Raise e
  end.

Notation "x <- c ;; k" := (bind c (fun x => k))
  (at level 61, c at next level, right associativity).
Notation "c ;;; k" := (bind c (fun _ => k))
  (at level 61, right associativity).

Module ErrorHandler.

Definition MAX_RETRIES : Z := 3.
Definition RETRY_DELAY : Q := (3 # 2)%Q.

Definition ERROR_MESSAGES : list (string * str) :=
  [ ("RATE_LIMIT", u "API rate limit exceeded. Please try again later.");
    ("INVALID_REQUEST", u "Invalid request parameters provided.");
    ("API_ERROR", u "External API error occurred.");
    ("TIMEOUT", u "Request timed out. Please try again.");
    ("CONTENT_FILTER", u "Content violates safety guidelines.");
    ("RETRY_FAILED", u "Maximum retry attempts exceeded.");
    ("PERFORMANCE_DEGRADED", u "Service performance degraded.");
    ("RESOURCE_EXHAUSTED", u "AI resource quota exhausted.") ]%string.

(** [ERROR_MESSAGES[key]]; every key the module subscripts with is
    present. *)
Fixpoint message_of (table : list (string * str)) (key : string) : str :=
  match table with
  | [] => []
  | (k, m) :: table' => if String.eqb key k then m else message_of table' key
  end.

Notation "'ERROR_MESSAGES_at' k" := (message_of ERROR_MESSAGES k)
  (at level 10, k at level 9).

(** What the module can observe of its environment: the clock read by
    [time.time()] and advanced by [time.sleep] (computation itself takes
    no time), the UUIDs [uuid.uuid4()] will return, and whatever state
    [env] the decorated callable works on. *)
Record World (S : Type) := {
  clock : Q;
  uuid_pool : nat -> str;
  uuid_next : nat;
  env : S
}.

Section WithEnv.
Context {S : Type}.

Definition time_time (w : World S) : Q := clock w.

(** The world after a sleep of [secs] that takes place. *)
Definition time_sleep (secs : Q) (w : World S) : World S :=
  {| clock := (clock w + secs)%Q;
     uuid_pool := uuid_pool w;
     uuid_next := uuid_next w;
     env := env w |}.

(** [str(uuid.uuid4())] *)
Definition uuid4 (w : World S) : str * World S :=
  (uuid_pool w (uuid_next w),
   {| clock := clock w;
      uuid_pool := uuid_pool w;
      uuid_next := Datatypes.S (uuid_next w);
      env := env w |}).

(** A callable run against the world. *)
Definition Callable (A : Type) := World S -> Result A * World S.
End WithEnv.

(** def _is_retryable_error(error) *)
Definition retryable_errors : list ExcClass :=
  [ openai_RateLimitError;
    openai_ServiceUnavailableError;
    openai_APIConnectionError;
    stability_RateLimitError;
    stability_ServerError ].

Definition _is_retryable_error (error : PyExc) : bool :=
  isinstance error retryable_errors.

(** What the wrapper does, in order: calls of the wrapped function (with
    the loop index) and sleeps (with their duration). *)
Inductive Event :=
| EvCall (attempt : nat)
| EvSleep (secs : Q).

(** [str(last_exception)] *)
Definition str_of_last (last_exception : option PyExc) : str :=
  match last_exception with
  | None => u "None"
  | Some e => exc_str e
  end.

(** [range(n)] *)
Definition range (n : Z) : list nat := seq 0 (Z.to_nat n).

(** An exception of the interpreter itself. *)
Definition builtin_exception (class : string) (bases : list string)
           (text : string) : PyExc :=
  {| exc_type := OtherClass class;
     exc_bases := map OtherClass bases;
     exc_str := u text;
     exc_details := [];
     exc_request_id := [] |}.

Definition int_too_large : PyExc :=
  builtin_exception "OverflowError" ["ArithmeticError"; "Exception"]%string
                    "int too large to convert to float".

Definition timestamp_too_large : PyExc :=
  builtin_exception "OverflowError" ["ArithmeticError"; "Exception"]%string
                    "timestamp too large to convert to C _PyTime_t".

Definition negative_sleep : PyExc :=
  builtin_exception "ValueError" ["Exception"]%string
                    "sleep length must be non-negative".

(** [delay * (2 ** attempt)] for a float [delay], as the signature of
    [retry] annotates it: the integer [2 ** attempt] is converted to a
    float first, which raises [OverflowError] from [2 ** 1024] on,
    whatever [delay] is.  Below that the product with a power of two is
    exact, or [inf] when it leaves the range of floats; [inf] is kept
    here as the exact product, which [time.sleep] rejects all the
    same. *)
Definition backoff_wait (delay : Q) (attempt : nat) : Result Q :=
  if (1024 <=? attempt)%nat then Raise int_too_large
  else Ok (delay * 2 ^ Z.of_nat attempt)%Q.

(** The longest duration [time.sleep] accepts: CPython holds it as a
    signed 64-bit count of nanoseconds. *)
Definition SLEEP_MAX_NS : Z := 2 ^ 63 - 1.

(** [time.sleep(secs)]: the exception it raises instead of sleeping, if
    any.  The conversion to nanoseconds comes first and raises
    [OverflowError] for a duration out of range, of either sign; a
    negative duration in range raises [ValueError].  The interpreter
    rounds the count of nanoseconds; the range is taken here on the
    exact count. *)
Definition time_sleep_raises (secs : Q) : option PyExc :=
  let ns := (secs * inject_Z (10 ^ 9))%Q in
  if negb (Qle_bool (inject_Z (- SLEEP_MAX_NS)) ns
           && Qle_bool ns (inject_Z SLEEP_MAX_NS))
  then Some timestamp_too_large
  else if negb (Qle_bool 0 secs) then Some negative_sleep
  else None.

Section Retry.
Context {S A : Type}.
Variable delay : Q.
Variable func : Callable (S := S) A.

(** The body of [wrapper]: the [for attempt in range(max_attempts)]
    loop over the indices still to run, then the [raise] after it.  An
    exception raised inside the [except] clause, by the product or by
    [time.sleep], leaves the wrapper as it is. *)
Fixpoint retry_loop (attempts : list nat) (last_exception : option PyExc)
         (w : World S) : Result A * World S * list Event :=
  match attempts with
  | [] =>
      let (request_id, w') := uuid4 w in
      (Raise (AIServiceError
                (ERROR_MESSAGES_at "RETRY_FAILED")
                [("original_error"%string,
                  VStr (str_of_last last_exception))]
                request_id),
       w', [])
  | attempt :: rest =>
      match func w with
      | (Ok v, w1) => (Ok v, w1, [EvCall attempt])
      | (Raise e, w1) =>
          if negb (_is_retryable_error e)
          then (Raise e, w1, [EvCall attempt])
          else
            match backoff_wait delay attempt with
            | Raise x => (Raise x, w1, [EvCall attempt])
            | Ok wait_time =>
                match time_sleep_raises wait_time with
                | Some x => (Raise x, w1, [EvCall attempt])
                | None =>
                    let '(r, w2, evs) :=
                      retry_loop rest (Some e) (time_sleep wait_time w1) in
                    (r, w2, EvCall attempt :: EvSleep wait_time :: evs)
                end
            end
      end
  end.
End Retry.

(** def retry(max_attempts=MAX_RETRIES, delay=RETRY_DELAY): the decorated
    function, with the trace of what it did. *)
Definition retry {S A} (max_attempts : Z) (delay : Q)
           (func : Callable (S := S) A) (w : World S)
  : Result A * World S * list Event :=
  retry_loop delay func (range max_attempts) None w.

(** The number of calls of the wrapped function in a trace. *)
Definition calls (evs : list Event) : nat :=
  List.length (filter (fun ev => match ev with EvCall _ => true | _ => false end) evs).

(** The sleeps of a trace. *)
Definition sleeps (evs : list Event) : list Q :=
  flat_map (fun ev => match ev with EvSleep q => [q] | _ => [] end) evs.

(** The [context] argument of the handlers: [start_time], a clock reading
    when present, and the other keys. *)
Record ErrorContext := {
  ctx_start_time : option Q;
  ctx_other : Dict
}.

(** [fastapi.HTTPException(status_code=..., detail=...)] *)
Record HTTPException := {
  status_code : Z;
  detail : PyVal
}.

(** def format_error_response(message, details, request_id); [now] is the
    reading of [time.time()]. *)
Definition format_error_response (message : str) (details : Dict)
           (request_id : str) (now : Q) : PyVal :=
  VDict
    [ ("error",
       VDict
         [ ("message", VStr message);
           ("request_id", VStr request_id);
           ("timestamp", VFloat now);
           ("details", VDict details);
           ("performance_metrics",
            VDict
              [ ("latency", dict_get_default details "latency" (VInt 0));
                ("retry_count",
                 dict_get_default details "retry_count" (VInt 0)) ]) ]) ]%string.

(** [detail['error']['message']] *)
Definition detail_message (d : PyVal) : option PyVal :=
  match d with
  | VDict top =>
      match dict_get top "error" with
      | Some (VDict err) => dict_get err "message"
      | _ => None
      end
  | _ => None
  end.

(** A dictionary keyed by exception class, and [d.get(type(e), default)]. *)
Definition ErrorMapping := list (ExcClass * (Z * str)).

Fixpoint mapping_get (m : ErrorMapping) (c : ExcClass) (default : Z * str)
  : Z * str :=
  match m with
  | [] => default
  | (c', v) :: m' => if ExcClass_eqb c c' then v else mapping_get m' c default
  end.

Definition openai_error_mapping : ErrorMapping :=
  [ (openai_RateLimitError, (429, ERROR_MESSAGES_at "RATE_LIMIT"));
    (openai_InvalidRequestError, (400, ERROR_MESSAGES_at "INVALID_REQUEST"));
    (openai_APIError, (500, ERROR_MESSAGES_at "API_ERROR"));
    (openai_Timeout, (504, ERROR_MESSAGES_at "TIMEOUT"));
    (openai_ContentFilterError, (422, ERROR_MESSAGES_at "CONTENT_FILTER")) ]%Z.

Definition stable_diffusion_error_mapping : ErrorMapping :=
  [ (stability_RateLimitError, (429, ERROR_MESSAGES_at "RATE_LIMIT"));
    (stability_InvalidRequestError,
     (400, ERROR_MESSAGES_at "INVALID_REQUEST"));
    (stability_ServerError, (500, ERROR_MESSAGES_at "API_ERROR"));
    (stability_ResourceExhaustedError,
     (429, ERROR_MESSAGES_at "RESOURCE_EXHAUSTED")) ]%Z.

Section Handlers.
Context {S : Type}.

(** The function under [@retry()] in [handle_openai_error]. *)
Definition handle_openai_error_body (error : PyExc) (context : ErrorContext)
  : Callable (S := S) HTTPException :=
  fun w =>
    let (request_id, w) := uuid4 w in
    let start_time :=
      match ctx_start_time context with
      | Some t => t
      | None => time_time w
      end in
    let latency := (time_time w - start_time)%Q in
    let '(status_code, message) :=
      mapping_get openai_error_mapping (exc_type error)
                  (500%Z, ERROR_MESSAGES_at "API_ERROR") in
    let error_details :=
      format_error_response message
        [ ("original_error", VStr (exc_str error));
          ("latency", VFloat latency);
          ("model",
           dict_get_default (ctx_other context) "model"
                            (VStr (u "unknown")));
          ("tokens",
           dict_get_default (ctx_other context) "tokens" (VInt 0)) ]%string
        request_id (time_time w) in
    (Ok {| status_code := status_code; detail := error_details |}, w).

(** The function under [@retry()] in [handle_stable_diffusion_error]. *)
Definition handle_stable_diffusion_error_body (error : PyExc)
           (context : ErrorContext) : Callable (S := S) HTTPException :=
  fun w =>
    let (request_id, w) := uuid4 w in
    let start_time :=
      match ctx_start_time context with
      | Some t => t
      | None => time_time w
      end in
    let latency := (time_time w - start_time)%Q in
    let '(status_code, message) :=
      mapping_get stable_diffusion_error_mapping (exc_type error)
                  (500%Z, ERROR_MESSAGES_at "API_ERROR") in
    let error_details :=
      format_error_response message
        [ ("original_error", VStr (exc_str error));
          ("latency", VFloat latency);
          ("image_size",
           dict_get_default (ctx_other context) "image_size"
                            (VStr (u "512x512")));
          ("engine",
           dict_get_default (ctx_other context) "engine"
                            (VStr (u "unknown"))) ]%string
        request_id (time_time w) in
    (Ok {| status_code := status_code; detail := error_details |}, w).

(** @retry() def handle_openai_error(error, context) *)
Definition handle_openai_error (error : PyExc) (context : ErrorContext)
           (w : World S) :=
  retry MAX_RETRIES RETRY_DELAY (handle_openai_error_body error context) w.

(** @retry() def handle_stable_diffusion_error(error, context) *)
Definition handle_stable_diffusion_error (error : PyExc)
           (context : ErrorContext) (w : World S) :=
  retry MAX_RETRIES RETRY_DELAY
        (handle_stable_diffusion_error_body error context) w.
End Handlers.

End ErrorHandler.

(* ================================================================== *)
(** * Regular expressions of the request models *)
(* ================================================================== *)

Module Re.

(** [re.match] of a pattern of the shape [^[class]{lo,hi}$]: between [lo]
    and [hi] characters of the class from the start of the string, and
    then [$], which holds at the end of the string and also just before a
    final line feed. *)
Definition match_class_repeat (cls : char -> bool) (lo hi : nat) (s : str)
  : bool :=
  let fits t :=
    (lo <=? List.length t)%nat && (List.length t <=? hi)%nat && forallb cls t in
  fits s ||
  match rev s with
  | 10%N :: p => fits (rev p)
  | _ => false
  end.

(** [re.sub('[class]', '', s)] *)
Definition sub_class_empty (cls : char -> bool) (s : str) : str :=
  filter (fun c => negb (cls c)) s.

(** ** [re.compile] on patterns of the shape [^[...]{m,n}$]

    What the parser of the standard [re] module does with the text of
    such a pattern.  The result is [None] where the text leaves the part
    of the pattern language that is followed here (a negated class, the
    categories [\d] and [\w], numeric and named escapes, a repeat that is
    not written [{m,n}], anything before [^] or after [$]); otherwise it
    is the compiled pattern or the [re.error] that [re.compile] raises.
    The flag [re.UNICODE] is the default for a [str] pattern and changes
    nothing. *)

(** One item of a character class: a character, a range between two
    characters, or the category [\s]. *)
Inductive ClassItem :=
| Literal (c : char)
| Range (lo hi : char)
| Whitespace.

(** A compiled pattern of the shape: its source text, the items of its
    class and the bounds of the repeat. *)
Record Pattern := {
  pattern : str;
  items : list ClassItem;
  min_repeat : nat;
  max_repeat : nat
}.

(** [re.error(msg, pattern, pos)]; its text is [msg at position pos]. *)
Definition error (msg : str) (pos : nat) : PyExc :=
  {| exc_type := OtherClass "re.error";
     exc_bases := [OtherClass "Exception"];
     exc_str := msg ++ u " at position " ++ str_of_Z (Z.of_nat pos);
     exc_details := [];
     exc_request_id := [] |}.

Definition ascii_letter (c : char) : bool :=
  ascii_upper_case c || ascii_lower_case c.

Definition ascii_digit (c : char) : bool := ((48 <=? c) && (c <=? 57))%N.

(** The escapes that stand for one control character or the backslash:
    [\a \b \f \n \r \t \v \\]. *)
Definition escape_character (c : char) : option char :=
  match c with
  | 97%N => Some 7%N
  | 98%N => Some 8%N
  | 102%N => Some 12%N
  | 110%N => Some 10%N
  | 114%N => Some 13%N
  | 116%N => Some 9%N
  | 118%N => Some 11%N
  | 92%N => Some 92%N
  | _ => None
  end.

(** The letters that start an escape not followed here: the categories
    [\d \D \S \w \W] and the numeric and named escapes [\x \u \U \N]. *)
Definition escape_not_followed (c : char) : bool :=
  existsb (N.eqb c) (u "dDSwWxuUN") || ascii_digit c.

(** A backslash at [pos] followed by [c], inside a class.  Any other
    ASCII letter after the backslash is an error; any other character
    stands for itself. *)
Definition class_escape (pos : nat) (c : char) : option (Result ClassItem) :=
  match escape_character c with
  | Some l => Some (Ok (Literal l))
  | None =>
      if (c =? 115)%N then Some (Ok Whitespace)
      else if escape_not_followed c then None
      else if ascii_letter c
           then Some (Raise (error (u "bad escape \" ++ [c]) pos))
           else Some (Ok (Literal c))
  end.

(** One character or escape of a class at [pos], with the text and the
    position after it. *)
Definition class_atom (pos : nat) (s : str)
  : option (Result (ClassItem * str * nat)) :=
  match s with
  | [] => None
  | c :: rest =>
      if (c =? 92)%N then
        match rest with
        | [] => None
        | e :: rest' =>
            match class_escape pos e with
            | None => None
            | Some (Raise x) => Some (Raise x)
            | Some (Ok i) => Some (Ok (i, rest', pos + 2)%nat)
            end
        end
      else Some (Ok (Literal c, rest, pos + 1)%nat)
  end.

(** The items of a class up to its closing bracket, which does not close
    the class where it comes [first].  A hyphen between two characters
    makes a range, which is an error when it runs backwards (the message
    quotes the two ends as they are written, so a backward range with an
    escaped end is not followed); a hyphen before the closing bracket
    stands for itself.  [fuel] bounds the number of items by the length
    of the text. *)
Fixpoint parse_class (fuel : nat) (pos : nat) (first : bool) (s : str)
         (acc : list ClassItem)
  : option (Result (list ClassItem * str * nat)) :=
  match fuel with
  | O => None
  | Datatypes.S fuel' =>
      match s with
      | [] => None
      | c :: s1 =>
          if (c =? 93)%N && negb first
          then Some (Ok (rev acc, s1, pos + 1)%nat)
          else
            match class_atom pos s with
            | None => None
            | Some (Raise x) => Some (Raise x)
            | Some (Ok (i1, r1, p1)) =>
                match r1 with
                | h :: r2 =>
                    if negb (h =? 45)%N
                    then parse_class fuel' p1 false r1 (i1 :: acc)
                    else
                      match r2 with
                      | [] => None
                      | c2 :: r2' =>
                          if (c2 =? 93)%N
                          then Some (Ok (rev (Literal 45%N :: i1 :: acc),
                                         r2', p1 + 2)%nat)
                          else
                            match class_atom (p1 + 1) r2 with
                            | None => None
                            | Some (Raise x) => Some (Raise x)
                            | Some (Ok (i2, r3, p3)) =>
                                match i1, i2 with
                                | Literal lo, Literal hi =>
                                    if (lo <=? hi)%N
                                    then parse_class fuel' p3 false r3
                                                     (Range lo hi :: acc)
                                    else if (c =? 92)%N || (c2 =? 92)%N
                                    then None
                                    else Some (Raise
                                                 (error
                                                    (u "bad character range "
                                                       ++ [lo] ++ u "-"
                                                       ++ [hi])
                                                    pos))
                                | _, _ => None
                                end
                            end
                      end
                | [] => None
                end
            end
      end
  end.

(** The leading decimal digits of a text, and what follows them. *)
Fixpoint take_digits (s : str) : str * str :=
  match s with
  | c :: rest =>
      if ascii_digit c
      then let (digits, rest') := take_digits rest in (c :: digits, rest')
      else ([], s)
  | [] => ([], [])
  end.

Definition int_of_digits (digits : str) : Z :=
  fold_left (fun n c => 10 * n + Z.of_N (c - 48))%Z digits 0%Z.

(** The largest repeat count the engine takes. *)
Definition MAXREPEAT : Z := 4294967295.

Definition starts_with (pre s : str) : bool := starts_with_by N.eqb pre s.

(** [s] without its prefix [pre], if it starts with it. *)
Definition strip_prefix (pre s : str) : option str :=
  if starts_with pre s then Some (skipn (List.length pre) s) else None.

(** [re.compile(source)] *)
Definition compile (source : str) : option (Result Pattern) :=
  match strip_prefix (u "^[") source with
  | None => None
  | Some body =>
      if starts_with (u "^") body then None
      else
        match parse_class (List.length body) 2 true body [] with
        | None => None
        | Some (Raise x) => Some (Raise x)
        | Some (Ok (class_items, rest, _)) =>
            match strip_prefix (u "{") rest with
            | None => None
            | Some rest1 =>
                let (lo, rest2) := take_digits rest1 in
                match strip_prefix (u ",") rest2 with
                | None => None
                | Some rest3 =>
                    let (hi, rest4) := take_digits rest3 in
                    if negb (str_eqb rest4 (u "}$")) then None
                    else
                      match lo, hi with
                      | _ :: _, _ :: _ =>
                          if ((int_of_digits lo <=? int_of_digits hi)
                              && (int_of_digits hi <? MAXREPEAT))%Z
                          then Some (Ok {| pattern := source;
                                           items := class_items;
                                           min_repeat :=
                                             Z.to_nat (int_of_digits lo);
                                           max_repeat :=
                                             Z.to_nat (int_of_digits hi) |})
                          else None
                      | _, _ => None
                      end
                end
            end
        end
  end.

Section WithUnicode.
Variable U : UnicodeData.

Definition item_matches (i : ClassItem) (c : char) : bool :=
  match i with
  | Literal l => (c =? l)%N
  | Range lo hi => ((lo <=? c) && (c <=? hi))%N
  | Whitespace => re_space U c
  end.

Definition class_matches (class_items : list ClassItem) (c : char) : bool :=
  existsb (fun i => item_matches i c) class_items.

(** Whether [p.match(s)] finds a match. *)
Definition pattern_match (p : Pattern) (s : str) : bool :=
  match_class_repeat (class_matches (items p)) (min_repeat p) (max_repeat p) s.

End WithUnicode.

End Re.

(* ================================================================== *)
(** * models/story_request.py *)
(* ================================================================== *)

Module StoryRequest.

Definition SUPPORTED_THEMES : list str :=
  map u [ "Magical"; "Adventure"; "Educational"; "Fantasy";
          "Nature"; "Science"; "Space"; "Ocean";
          "Friendship"; "Family" ]%string.

Definition MAX_CHARACTER_NAME_LENGTH : Z := 50.
Definition MIN_AGE : Z := 3.
Definition MAX_AGE : Z := 12.
Definition MAX_INTERESTS : Z := 5.
Definition MAX_ADDITIONAL_NOTES_LENGTH : Z := 500.

(** The texts handed to [re.compile] at the top level of the module, for
    [NAME_PATTERN] and [INTEREST_PATTERN]. *)
Definition NAME_PATTERN_source : str := u "^[\p{L}\s-]{1,50}$".
Definition INTEREST_PATTERN_source : str := u "^[\p{L}\s-]{1,30}$".

(** The module globals the class reads when a validator runs: what the
    top level has bound [NAME_PATTERN] and [INTEREST_PATTERN] to. *)
Record Globals := {
  NAME_PATTERN : Re.Pattern;
  INTEREST_PATTERN : Re.Pattern
}.

(** Executing the module, as an [import] of it does: the two patterns are
    compiled in order with the standard [re] module, and the class
    statement comes after them.  An exception ends the import, and with
    it every use of the module. *)
Definition import_module : option (Result Globals) :=
  match Re.compile NAME_PATTERN_source with
  | None => None
  | Some (Raise e) => Some (Raise e)
  | Some (Ok name_pattern) =>
      match Re.compile INTEREST_PATTERN_source with
      | None => None
      | Some (Raise e) => Some (Raise e)
      | Some (Ok interest_pattern) =>
          Some (Ok {| NAME_PATTERN := name_pattern;
                      INTEREST_PATTERN := interest_pattern |})
      end
  end.

(** The dataclass.  Fields have their annotated types, so the
    [isinstance] guards of [validate_age] and [validate_interests], which
    reject values of other types, are not represented. *)
Record t := {
  character_name : str;
  age : Z;
  theme : str;
  interests : list str;
  additional_notes : option str
}.

(** [dict.fromkeys(keys)] followed by [list(...)]: a key is inserted at
    the end unless it is already present, in which case it keeps its
    place. *)
Definition dict_insert_key (d : list str) (k : str) : list str :=
  if existsb (str_eqb k) d then d else d ++ [k].

Definition list_dict_fromkeys (keys : list str) : list str :=
  fold_left dict_insert_key keys [].

(** Truth value of an [Optional[str]]. *)
Definition truthy (s : option str) : bool :=
  match s with
  | Some (_ :: _) => true
  | _ => false
  end.

(** def validate_age(self) *)
Definition validate_age (self : t) : Result bool :=
  if negb ((MIN_AGE <=? age self)%Z && (age self <=? MAX_AGE)%Z) then
    Raise (AIServiceError
             (u "Age must be between " ++ str_of_Z MIN_AGE ++ u " and "
                ++ str_of_Z MAX_AGE ++ u " years")
             [("field", VStr (u "age")); ("value", VInt (age self))]%string
             (u "validate_age"))
  else Ok true.

(** def validate_theme(self) *)
Definition validate_theme (self : t) : Result bool :=
  match theme self with
  | [] =>
      Raise (AIServiceError (u "Theme is required")
               [("field", VStr (u "theme"))]%string
               (u "validate_theme"))
  | _ =>
      if negb (existsb (str_eqb (theme self)) SUPPORTED_THEMES) then
        Raise (AIServiceError (u "Invalid theme selected")
                 [("field", VStr (u "theme"));
                  ("value", VStr (theme self));
                  ("supported_themes", VList (map VStr SUPPORTED_THEMES))]%string
                 (u "validate_theme"))
      else Ok true
  end.

(** def validate_additional_notes(self) *)
Definition validate_additional_notes (self : t) : Result bool :=
  match additional_notes self with
  | None => Ok true
  | Some notes =>
      if (len notes >? MAX_ADDITIONAL_NOTES_LENGTH)%Z then
        Raise (AIServiceError
                 (u "Additional notes must not exceed "
                    ++ str_of_Z MAX_ADDITIONAL_NOTES_LENGTH
                    ++ u " characters")
                 [("field", VStr (u "additional_notes"));
                  ("length", VInt (len notes))]%string
                 (u "validate_notes"))
      else Ok true
  end.

Section WithUnicode.
Variable U : UnicodeData.

(** def sanitize_input(input_string) *)
Definition sanitize_input (input_string : str) : str :=
  let normalized := nfkc U input_string in
  let sanitized := filter (fun c => negb (category_is_C U c)) normalized in
  join (u " ") (split U sanitized).

Section WithGlobals.
Variable g : Globals.

(** def validate_character_name(self) *)
Definition validate_character_name (self : t) : Result bool :=
  match character_name self with
  | [] =>
      Raise (AIServiceError (u "Character name is required")
               [("field", VStr (u "character_name"))]%string
               (u "validate_name"))
  | _ =>
      if negb (Re.pattern_match U (NAME_PATTERN g) (character_name self)) then
        Raise (AIServiceError
                 (u "Character name must contain only letters, spaces, and hyphens")
                 [("field", VStr (u "character_name"));
                  ("value", VStr (character_name self))]%string
                 (u "validate_name"))
      else if (len (character_name self) >? MAX_CHARACTER_NAME_LENGTH)%Z then
        Raise (AIServiceError
                 (u "Character name must not exceed "
                    ++ str_of_Z MAX_CHARACTER_NAME_LENGTH ++ u " characters")
                 [("field", VStr (u "character_name"));
                  ("length", VInt (len (character_name self)))]%string
                 (u "validate_name"))
      else Ok true
  end.

(** The [for interest in self.interests] loop of [validate_interests]:
    raises at the first interest the pattern rejects. *)
Fixpoint check_each_interest (l : list str) : Result unit :=
  match l with
  | [] => Ok tt
  | interest :: rest =>
      if negb (Re.pattern_match U (INTEREST_PATTERN g) interest) then
        Raise (AIServiceError
                 (u "Interest must contain only letters, spaces, and hyphens")
                 [("field", VStr (u "interests"));
                  ("invalid_value", VStr interest)]%string
                 (u "validate_interests"))
      else check_each_interest rest
  end.

(** def validate_interests(self): returns [True] and the updated
    [self]. *)
Definition validate_interests (self : t) : Result (bool * t) :=
  match interests self with
  | [] =>
      Raise (AIServiceError (u "At least one interest is required")
               [("field", VStr (u "interests"))]%string
               (u "validate_interests"))
  | _ =>
      if (Z.of_nat (List.length (interests self)) >? MAX_INTERESTS)%Z then
        Raise (AIServiceError
                 (u "Maximum " ++ str_of_Z MAX_INTERESTS
                    ++ u " interests allowed")
                 [("field", VStr (u "interests"));
                  ("count", VInt (Z.of_nat (List.length (interests self))))]%string
                 (u "validate_interests"))
      else
        check_each_interest (interests self) ;;;
        Ok (true,
            {| character_name := character_name self;
               age := age self;
               theme := theme self;
               interests := list_dict_fromkeys (interests self);
               additional_notes := additional_notes self |})
  end.

(** def validate(self): returns [True] and the updated [self]. *)
Definition validate (self : t) : Result (bool * t) :=
  validate_character_name self ;;;
  validate_age self ;;;
  validate_theme self ;;;
  r <- validate_interests self ;;
  let self := snd r in
  validate_additional_notes self ;;;
  Ok (true, self).

(** def __post_init__(self): the instance after sanitization and
    validation, or the exception that aborts the construction. *)
Definition __post_init__ (self : t) : Result t :=
  let self :=
    {| character_name := sanitize_input (character_name self);
       age := age self;
       theme := sanitize_input (theme self);
       interests := map sanitize_input (interests self);
       additional_notes :=
         if truthy (additional_notes self)
         then option_map sanitize_input (additional_notes self)
         else additional_notes self |} in
  r <- validate self ;;
  Ok (snd r).

(** [StoryRequest(character_name=..., age=..., theme=...,
    interests=..., additional_notes=...)] once the module is there: the
    generated [__init__] stores the fields and calls [__post_init__]; the
    caller receives the instance only if that returns. *)
Definition new (character_name : str) (age : Z) (theme : str)
           (interests : list str) (additional_notes : option str)
  : Result t :=
  __post_init__
    {| character_name := character_name;
       age := age;
       theme := theme;
       interests := interests;
       additional_notes := additional_notes |}.

End WithGlobals.

(** [from ...models.story_request import StoryRequest] and then
    [StoryRequest(...)], which is how every caller in the repository
    reaches the class: the import runs the module first. *)
Definition construct (character_name : str) (age : Z) (theme : str)
           (interests : list str) (additional_notes : option str)
  : option (Result t) :=
  match import_module with
  | None => None
  | Some (Raise e) => Some (Raise e)
  | Some (Ok g) =>
      Some (new g character_name age theme interests additional_notes)
  end.

End WithUnicode.

(** def to_dict(self) *)
Definition to_dict (self : t) : Dict :=
  let request_dict :=
    [ ("character_name", VStr (character_name self));
      ("age", VInt (age self));
      ("theme", VStr (theme self));
      ("interests", VList (map VStr (interests self))) ]%string in
  if truthy (additional_notes self)
  then request_dict ++
       [("additional_notes"%string,
         match additional_notes self with
         | Some notes => VStr notes
         | None => VNone
         end)]
  else request_dict.

End StoryRequest.

(* ================================================================== *)
(** * models/illustration_request.py *)
(* ================================================================== *)

Module IllustrationRequest.

Definition SUPPORTED_STYLES : list str :=
  map u [ "children's book";
          "watercolor";
          "digital art";
          "cartoon";
          "realistic" ]%string.

Definition MAX_PROMPT_LENGTH : Z := 1000.
Definition MIN_PROMPT_LENGTH : Z := 10.
Definition DEFAULT_SIZE : Z * Z := (512, 512)%Z.
Definition MIN_IMAGE_DIMENSION : Z := 256.
Definition MAX_IMAGE_DIMENSION : Z := 1024.

(** UNSAFE_PATTERN = r'[<>&;{}\[\]\\]' *)
Definition UNSAFE_PATTERN (c : char) : bool :=
  existsb (N.eqb c) (u "<>&;{}[]\").

(** The model.  A tuple of integers is the list of its components. *)
Record t := {
  prompt : str;
  style : str;
  size : list Z;
  enhance_faces : bool
}.

(** [str(dimensions)] for a tuple of integers. *)
Definition str_of_tuple (dimensions : list Z) : str :=
  match dimensions with
  | [] => u "()"
  | [x] => u "(" ++ str_of_Z x ++ u ",)"
  | _ => u "(" ++ join (u ", ") (map str_of_Z dimensions) ++ u ")"
  end.

Section WithUnicode.
Variable U : UnicodeData.

(** def sanitize_string(value) *)
Definition sanitize_string (value : str) : str :=
  let sanitized := Re.sub_class_empty UNSAFE_PATTERN value in
  let sanitized := join (u " ") (split U sanitized) in
  let sanitized :=
    replace 39%N (u "&#x27;")
      (replace 34%N (u "&quot;")
         (replace 62%N (u "&gt;")
            (replace 60%N (u "&lt;")
               (replace 38%N (u "&amp;") sanitized)))) in
  strip U sanitized.

(** def validate_string_length(value, min_length, max_length) *)
Definition validate_string_length (value : str) (min_length max_length : Z)
  : Result str :=
  match value with
  | [] =>
      Raise (AIServiceError (u "Invalid string input")
               [("value", VStr value)]%string
               (u "validation_error"))
  | _ =>
      let value := strip U value in
      if negb ((min_length <=? len value)%Z && (len value <=? max_length)%Z)
      then
        Raise (AIServiceError
                 (u "String length must be between " ++ str_of_Z min_length
                    ++ u " and " ++ str_of_Z max_length ++ u " characters")
                 [("value_length", VInt (len value))]%string
                 (u "validation_error"))
      else Ok (sanitize_string value)
  end.

(** @validator('prompt') def validate_prompt(cls, value) *)
Definition validate_prompt (value : str) : Result str :=
  validate_string_length value MIN_PROMPT_LENGTH MAX_PROMPT_LENGTH.

(** @validator('style') def validate_style(cls, value) *)
Definition validate_style (value : str) : Result str :=
  if match value with [] => true | _ => false end
     || negb (existsb (str_eqb (lower U value))
                      (map (lower U) SUPPORTED_STYLES))
  then
    Raise (AIServiceError (u "Invalid illustration style")
             [("provided_style", VStr value);
              ("supported_styles", VList (map VStr SUPPORTED_STYLES))]%string
             (u "validation_error"))
  else
    match find (fun s => str_eqb (lower U s) (lower U value))
               SUPPORTED_STYLES with
    | Some s => Ok s
    | None =>
        Raise {| exc_type := OtherClass "StopIteration";
                 exc_bases := [OtherClass "Exception"];
                 exc_str := [];
                 exc_details := [];
                 exc_request_id := [] |}
    end.

End WithUnicode.

(** [width / height], then [0.5 <= aspect_ratio <= 2.0]. *)
Definition aspect_ratio (width height : Z) : Q :=
  (inject_Z width / inject_Z height)%Q.

(** def validate_image_dimensions(dimensions) *)
Definition validate_image_dimensions (dimensions : list Z)
  : Result (list Z) :=
  match dimensions with
  | [width; height] =>
      if negb ((MIN_IMAGE_DIMENSION <=? width)%Z
               && (width <=? MAX_IMAGE_DIMENSION)%Z
               && (MIN_IMAGE_DIMENSION <=? height)%Z
               && (height <=? MAX_IMAGE_DIMENSION)%Z)
      then
        Raise (AIServiceError
                 (u "Image dimensions must be between "
                    ++ str_of_Z MIN_IMAGE_DIMENSION ++ u " and "
                    ++ str_of_Z MAX_IMAGE_DIMENSION ++ u " pixels")
                 [("width", VInt width); ("height", VInt height)]%string
                 (u "validation_error"))
      else
        let aspect_ratio := aspect_ratio width height in
        if negb (Qle_bool (1 # 2)%Q aspect_ratio
                 && Qle_bool aspect_ratio (2 # 1)%Q)
        then
          Raise (AIServiceError
                   (u "Image aspect ratio must be between 1:2 and 2:1")
                   [("aspect_ratio", VFloat aspect_ratio)]%string
                   (u "validation_error"))
        else Ok [width; height]
  | _ =>
      Raise (AIServiceError (u "Invalid image dimensions format")
               [("dimensions", VStr (str_of_tuple dimensions))]%string
               (u "validation_error"))
  end.

(** @validator('size') def validate_size(cls, value) *)
Definition validate_size (value : list Z) : Result (list Z) :=
  dimensions <- validate_image_dimensions value ;;
  match dimensions with
  | [width; height] =>
      if negb (width mod 8 =? 0)%Z || negb (height mod 8 =? 0)%Z then
        Raise (AIServiceError (u "Image dimensions must be multiples of 8")
                 [("width", VInt width); ("height", VInt height)]%string
                 (u "validation_error"))
      else Ok dimensions
  | _ => Ok dimensions
  end.

(** The error pydantic raises at the end of validation when a field
    failed one of its own constraints. *)
Definition pydantic_ValidationError : PyExc :=
  {| exc_type := OtherClass "pydantic.ValidationError";
     exc_bases := [OtherClass "ValueError"; OtherClass "Exception"];
     exc_str := [];
     exc_details := [];
     exc_request_id := [] |}.

(** [IllustrationRequest(prompt=..., style=..., size=...,
    enhance_faces=...)] on arguments of the annotated types.  pydantic
    validates the fields in declaration order.  A field constraint that
    fails ([min_length], [max_length] of [prompt]) is recorded, the
    field's validator is skipped and the remaining fields are still
    validated; an exception a validator raises that is not a
    [ValueError], [TypeError] or [AssertionError] (so every
    [AIServiceError]) leaves the constructor at once. *)
Definition new (U : UnicodeData) (prompt : str) (style : str)
           (size : Z * Z) (enhance_faces : bool) : Result t :=
  prompt' <-
    (if (MIN_PROMPT_LENGTH <=? len prompt)%Z
        && (len prompt <=? MAX_PROMPT_LENGTH)%Z
     then p <- validate_prompt U prompt ;; Ok (Some p)
     else Ok None) ;;
  style' <- validate_style U style ;;
  size' <- validate_size [fst size; snd size] ;;
  match prompt' with
  | Some p =>
      Ok {| prompt := p;
            style := style';
            size := size';
            enhance_faces := enhance_faces |}
  | None => Raise pydantic_ValidationError
  end.

End IllustrationRequest.

(* ================================================================== *)
(** * utils/validators.py: content safety *)
(* ================================================================== *)

Module Validators.

(** A compiled pattern of the module: its source text, and what the
    source denotes.  Every pattern of the module is written
    [(?i)(w1|w2|...)]: a case-insensitive choice between literal words. *)
Record Pattern := {
  pattern : str;
  ignorecase : bool;
  words : list str
}.

(** Pieces of [s] between occurrences of [sep]; [piece] holds the piece
    being read, last character first. *)
Fixpoint pieces_from (sep : char) (piece : str) (s : str) : list str :=
  match s with
  | [] => [rev piece]
  | c :: s' =>
      if N.eqb c sep then rev piece :: pieces_from sep [] s'
      else pieces_from sep (c :: piece) s'
  end.

Definition strip_prefix (pre s : str) : option str :=
  if starts_with_by N.eqb pre s
  then Some (skipn (List.length pre) s)
  else None.

(** [re.compile(source)] on the fragment the module uses: an optional
    [(?i)], then one parenthesised choice of literal words.  A source
    without the parentheses is read as one literal word. *)
Definition re_compile (source : str) : Pattern :=
  let '(flag, body) :=
    match strip_prefix (u "(?i)") source with
    | Some rest => (true, rest)
    | None => (false, source)
    end in
  {| pattern := source;
     ignorecase := flag;
     words :=
       match body, rev body with
       | 40%N :: inner, 41%N :: _ =>
           pieces_from 124%N [] (removelast inner)
       | _, _ => [body]
       end |}.

(** NSFW_KEYWORDS: left empty in the source ("Redacted for brevity"). *)
Definition NSFW_KEYWORDS : list str := [].

Definition UNSAFE_PATTERNS : list str :=
  map u [ "(?i)(violence|weapon|drug)";
          "(?i)(explicit|mature|adult)" ]%string.

Definition AGE_INAPPROPRIATE_CONTENT : list str :=
  map u [ "(?i)(fear|horror|scary)";
          "(?i)(complex|advanced|difficult)" ]%string.

(** @dataclass class ValidationResult *)
Record ValidationResult := {
  is_valid : bool;
  message : str;
  details : option Dict
}.

(** class ContentValidator: the attributes [__init__] sets that the
    safety check reads. *)
Record ContentValidator := {
  _unsafe_patterns : list Pattern;
  _age_patterns : list Pattern
}.

(** def __init__(self) *)
Definition __init__ : ContentValidator :=
  {| _unsafe_patterns := map re_compile UNSAFE_PATTERNS;
     _age_patterns := map re_compile AGE_INAPPROPRIATE_CONTENT |}.

Section WithUnicode.
Variable U : UnicodeData.

(** [pattern.search(text)] *)
Definition search (p : Pattern) (text : str) : bool :=
  existsb (fun w => occurs_by (if ignorecase p then re_ieq U else N.eqb)
                              w text)
          (words p).

(** def _normalize_text(self, text) *)
Definition _normalize_text (text : str) : str := nfkc U text.

(** The three loops of [_check_content_safety], each returning at its
    first hit and falling through to the next one otherwise. *)
Fixpoint scan_age (normalized_text : str) (patterns : list Pattern)
  : ValidationResult :=
  match patterns with
  | [] =>
      {| is_valid := true;
         message := u "Content passed safety checks";
         details := None |}
  | p :: rest =>
      if search p normalized_text then
        {| is_valid := false;
           message := u "Content not suitable for target age group";
           details := Some [("pattern"%string, VStr (pattern p))] |}
      else scan_age normalized_text rest
  end.

Fixpoint scan_unsafe (normalized_text : str) (age_patterns : list Pattern)
         (patterns : list Pattern) : ValidationResult :=
  match patterns with
  | [] => scan_age normalized_text age_patterns
  | p :: rest =>
      if search p normalized_text then
        {| is_valid := false;
           message := u "Content contains unsafe patterns";
           details := Some [("pattern"%string, VStr (pattern p))] |}
      else scan_unsafe normalized_text age_patterns rest
  end.

Fixpoint scan_keywords (normalized_text : str)
         (unsafe_patterns age_patterns : list Pattern)
         (keywords : list str) : ValidationResult :=
  match keywords with
  | [] => scan_unsafe normalized_text age_patterns unsafe_patterns
  | keyword :: rest =>
      if contains keyword normalized_text then
        {| is_valid := false;
           message := u "Content contains inappropriate keywords";
           details := Some [("keyword"%string, VStr keyword)] |}
      else scan_keywords normalized_text unsafe_patterns age_patterns rest
  end.

(** The body of [_check_content_safety] over a keyword list. *)
Definition check_content_safety_over (keywords : list str)
           (self : ContentValidator) (text : str) : ValidationResult :=
  let normalized_text := _normalize_text (lower U text) in
  scan_keywords normalized_text (_unsafe_patterns self)
                (_age_patterns self) keywords.

(** def _check_content_safety(self, text) *)
Definition _check_content_safety (self : ContentValidator) (text : str)
  : ValidationResult :=
  check_content_safety_over NSFW_KEYWORDS self text.

End WithUnicode.

End Validators.

(* ================================================================== *)
(** * utils/validators.py: prompts, ages, dimensions, timeouts *)
(* ================================================================== *)

(** How a call that raises can end for its caller: with an exception value
    or with a [fastapi.HTTPException]. *)
Inductive Raised :=
| RaisedError (e : PyExc)
| RaisedHTTP (h : ErrorHandler.HTTPException).

Inductive Outcome (A : Type) :=
| Returned (a : A)
| Failed (x : Raised).
Arguments Returned {A} a.
Arguments Failed {A} x.

Module ValidationUtils.
Import ErrorHandler Validators.

(** MAX_PROMPT_LENGTH = OPENAI_CONFIG['max_tokens'], which [config.py]
    sets to 4000. *)
Definition MAX_PROMPT_LENGTH : Z := 4000.
Definition MIN_PROMPT_LENGTH : Z := 10.
Definition AGE_RANGE : Z * Z := (3, 12)%Z.
Definition VALIDATION_TIMEOUT : Z := 5000.

(** STABLE_DIFFUSION_CONFIG['base_resolution'] of [config.py]. *)
Definition base_resolution : Z * Z := (512, 512)%Z.

(** def validate_story_prompt(self, prompt), on a [str]. *)
Definition validate_story_prompt (U : UnicodeData) (self : ContentValidator)
           (prompt : str) : ValidationResult :=
  let prompt := strip U prompt in
  if (len prompt <? MIN_PROMPT_LENGTH)%Z then
    {| is_valid := false;
       message := u "Prompt too short";
       details := Some [("min_length"%string, VInt MIN_PROMPT_LENGTH)] |}
  else if (len prompt >? MAX_PROMPT_LENGTH)%Z then
    {| is_valid := false;
       message := u "Prompt exceeds maximum length";
       details := Some [("max_length"%string, VInt MAX_PROMPT_LENGTH)] |}
  else
    let safety_result := _check_content_safety U self prompt in
    if negb (is_valid safety_result) then safety_result
    else {| is_valid := true;
            message := u "Prompt validation successful";
            details := None |}.

(** One character of the class [[a-zA-Z0-9\s-]]. *)
Definition name_char (U : UnicodeData) (c : char) : bool :=
  ascii_lower_case c || ascii_upper_case c
  || ((48 <=? c)%N && (c <=? 57)%N)
  || re_space U c || (c =? 45)%N.

(** NAME_PATTERN = re.compile(r'^[a-zA-Z0-9\s-]{1,50}$'), and its [match]. *)
Definition NAME_PATTERN : str := u "^[a-zA-Z0-9\s-]{1,50}$".

Definition NAME_PATTERN_match (U : UnicodeData) (s : str) : bool :=
  Re.match_class_repeat (name_char U) 1 50 s.

Section WithWorld.
Context {S : Type}.

(** [str(x)] for a float, a function of the interpreter. *)
Variable str_of_float : Q -> str.

(** def timeout(ms): the decorated function.  The function runs to its
    end; the clock is read before and after. *)
Definition timeout {A : Type} (ms : Z) (func : Callable (S := S) A)
  : Callable (S := S) A :=
  fun w =>
    let start_time := time_time w in
    match func w with
    | (Raise e, w1) => (Raise e, w1)
    | (Ok result, w1) =>
        if negb (Qle_bool ((time_time w1 - start_time) * inject_Z 1000)
                          (inject_Z ms))
        then (Raise (AIServiceError (u "Validation timeout exceeded")
                       [("timeout"%string, VInt ms)]
                       (str_of_float (time_time w1))),
              w1)
        else (Ok result, w1)
    end.

(** The function under [@timeout] in [validate_string], on a [str];
    [elapsed] is the time its evaluation takes. *)
Definition validate_string_body (U : UnicodeData) (elapsed : Q)
           (value : str) (min_length max_length : Z)
           (allow_special_chars : bool) : Callable (S := S) str :=
  fun w =>
    let w := time_sleep elapsed w in
    let value := strip U value in
    let normalized_value := nfkc U value in
    if (len normalized_value <? min_length)%Z
       || (len normalized_value >? max_length)%Z then
      (Raise (AIServiceError (u "Invalid string length")
                [("min", VInt min_length); ("max", VInt max_length);
                 ("received", VInt (len normalized_value))]%string
                (str_of_float (time_time w))),
       w)
    else if negb allow_special_chars
            && negb (NAME_PATTERN_match U normalized_value) then
      (Raise (AIServiceError (u "String contains invalid characters")
                [("pattern"%string, VStr NAME_PATTERN)]
                (str_of_float (time_time w))),
       w)
    else (Ok normalized_value, w).

(** @timeout(VALIDATION_TIMEOUT)
    def validate_string(value, min_length=1, max_length=MAX_PROMPT_LENGTH,
                        allow_special_chars=False) *)
Definition validate_string (U : UnicodeData) (elapsed : Q) (value : str)
           (min_length max_length : Z) (allow_special_chars : bool)
  : Callable (S := S) str :=
  timeout VALIDATION_TIMEOUT
          (validate_string_body U elapsed value min_length max_length
                                allow_special_chars).

(** The function under [@timeout] in [validate_age]; [elapsed] is the time
    its evaluation takes. *)
Definition validate_age_body (elapsed : Q) (age : Z)
  : Callable (S := S) Z :=
  fun w =>
    let w := time_sleep elapsed w in
    let '(min_age, max_age) := AGE_RANGE in
    if (age <? min_age)%Z || (age >? max_age)%Z then
      (Raise (AIServiceError (u "Age out of acceptable range")
                [("min", VInt min_age); ("max", VInt max_age);
                 ("received", VInt age)]%string
                (str_of_float (time_time w))),
       w)
    else (Ok age, w).

(** @timeout(VALIDATION_TIMEOUT) def validate_age(age) *)
Definition validate_age (elapsed : Q) (age : Z) : Callable (S := S) Z :=
  timeout VALIDATION_TIMEOUT (validate_age_body elapsed age).

(** The function under [@timeout] in [validate_image_dimensions]. *)
Definition validate_image_dimensions_body (elapsed : Q)
           (dimensions : list Z) : Callable (S := S) (list Z) :=
  fun w =>
    let w := time_sleep elapsed w in
    match dimensions with
    | [width; height] =>
        let '(base_width, base_height) := base_resolution in
        if negb (width mod base_width =? 0)%Z
           || negb (height mod base_height =? 0)%Z then
          (Raise (AIServiceError
                    (u "Dimensions must be multiples of base resolution")
                    [("base_width", VInt base_width);
                     ("base_height", VInt base_height)]%string
                    (str_of_float (time_time w))),
           w)
        else
          let max_dimension := 2048%Z in
          if (width >? max_dimension)%Z || (height >? max_dimension)%Z then
            (Raise (AIServiceError
                      (u "Dimensions exceed maximum supported size")
                      [("max_dimension"%string, VInt max_dimension)]
                      (str_of_float (time_time w))),
             w)
          else (Ok [width; height], w)
    | _ =>
        (Raise (AIServiceError (u "Invalid dimensions format")
                  [("expected", VStr (u "tuple(int, int)"));
                   ("received",
                    VStr (IllustrationRequest.str_of_tuple dimensions))]%string
                  (str_of_float (time_time w))),
         w)
    end.

(** @timeout(VALIDATION_TIMEOUT) def validate_image_dimensions(dimensions) *)
Definition validate_image_dimensions (elapsed : Q) (dimensions : list Z)
  : Callable (S := S) (list Z) :=
  timeout VALIDATION_TIMEOUT (validate_image_dimensions_body elapsed dimensions).

End WithWorld.

End ValidationUtils.

(* ================================================================== *)
(** * services/stable_diffusion_service.py *)
(* ================================================================== *)

Module StableDiffusionService.
Import ErrorHandler.

Definition STYLE_PROMPTS : list (str * str) :=
  [ (u "children's book",
     u "in the style of a children's book illustration, whimsical, colorful, gentle, age-appropriate, engaging");
    (u "watercolor",
     u "watercolor painting style, soft edges, artistic, flowing, natural pigments, textured paper effect");
    (u "digital art",
     u "digital art style, clean lines, vibrant, modern, professional finish, balanced composition");
    (u "cartoon",
     u "cartoon style, bold outlines, expressive, dynamic, appealing, character-focused");
    (u "realistic",
     u "photorealistic style, detailed, natural lighting, proper proportions, subtle textures") ].

(** [d.get(key, default)] for a dictionary keyed by strings. *)
Fixpoint str_dict_get (d : list (str * str)) (key : str) (default : str)
  : str :=
  match d with
  | [] => default
  | (k, v) :: d' => if str_eqb key k then v else str_dict_get d' key default
  end.

Definition MAX_RETRIES : Z := 3.
Definition RETRY_DELAY : Q := 1%Q.

(** def format_prompt(prompt, style).  On strings nothing in the [try]
    block raises, so the [except] clause is not represented. *)
Definition format_prompt (U : UnicodeData) (prompt style : str) : str :=
  let style_prompt := str_dict_get STYLE_PROMPTS (lower U style) [] in
  let formatted_prompt :=
    prompt ++ u ", " ++ style_prompt
           ++ u ", high quality, detailed, professional" in
  let quality_keywords :=
    u "masterpiece, highly detailed, best quality, professional" in
  formatted_prompt ++ u ", " ++ quality_keywords.

(** An image as bytes, and one answer of the provider with the binaries of
    its artifacts. *)
Definition bytes := list N.

Record Answer := {
  artifacts : list bytes
}.

(** The first answer that has artifacts, and its first artifact: the
    [for answer in answers: if answer.artifacts:] loop. *)
Fixpoint first_artifact (answers : list Answer) : option bytes :=
  match answers with
  | [] => None
  | answer :: rest =>
      match artifacts answer with
      | artifact :: _ => Some artifact
      | [] => first_artifact rest
      end
  end.

(** [int(x)] for a float: truncation towards zero. *)
Definition int_of_float (q : Q) : Z := Z.quot (Qnum q) (Zpos (Qden q)).

Section Service.
Context {S : Type}.
Variable U : UnicodeData.
Variable str_of_float : Q -> str.

(** The collaborators of the service: the provider call
    [self._client.generate(prompt=, width=, height=, ..., seed=)], the
    image pipeline from [Image.open] through [enhance_image] to
    [getvalue()], and the configured [engine_id]. *)
Variable client_generate : str -> Z -> Z -> Z -> Callable (S := S) (list Answer).
Variable render : bytes -> bool -> Result bytes.
Variable engine_id : option str.

(** The body of the inner [try] for one attempt. *)
Definition attempt_body (formatted_prompt : str) (width height : Z)
           (enhance_faces : bool) (attempt : nat) : Callable (S := S) bytes :=
  fun w =>
    match client_generate formatted_prompt width height
                          (int_of_float (time_time w * inject_Z 1000)) w with
    | (Raise e, w1) => (Raise e, w1)
    | (Ok answers, w1) =>
        match first_artifact answers with
        | Some binary => (render binary enhance_faces, w1)
        | None =>
            (Raise (AIServiceError (u "No artifacts generated")
                      [("attempt"%string, VInt (Z.of_nat attempt + 1))]
                      (str_of_float (time_time w1))),
             w1)
        end
    end.

(** The [for attempt in range(MAX_RETRIES)] loop: [None] when the loop
    runs out without returning or raising. *)
Fixpoint generation_loop (call : nat -> Callable (S := S) bytes)
         (attempts : list nat) (w : World S)
  : option (Result bytes) * World S * list Event :=
  match attempts with
  | [] => (None, w, [])
  | attempt :: rest =>
      match call attempt w with
      | (Ok image, w1) => (Some (Ok image), w1, [EvCall attempt])
      | (Raise e, w1) =>
          if (Z.of_nat attempt =? MAX_RETRIES - 1)%Z
          then (Some (Raise e), w1, [EvCall attempt])
          else
            let wait_time := (RETRY_DELAY * 2 ^ Z.of_nat attempt)%Q in
            let '(r, w2, evs) :=
              generation_loop call rest (time_sleep wait_time w1) in
            (r, w2, EvCall attempt :: EvSleep wait_time :: evs)
      end
  end.

(** async def generate_illustration(self, request): what the coroutine
    does from start to end, with the trace of its provider calls and
    sleeps. *)
Definition generate_illustration (request : IllustrationRequest.t)
           (w : World S) : Outcome (option bytes) * World S * list Event :=
  let start_time := time_time w in
  match IllustrationRequest.size request with
  | width :: height :: _ =>
      let context :=
        {| ctx_start_time := Some start_time;
           ctx_other :=
             [ ("image_size"%string,
                VStr (str_of_Z width ++ u "x" ++ str_of_Z height));
               ("engine"%string,
                match engine_id with
                | Some e => VStr e
                | None => VNone
                end) ] |} in
      let formatted_prompt :=
        format_prompt U (IllustrationRequest.prompt request)
                      (IllustrationRequest.style request) in
      match generation_loop
              (attempt_body formatted_prompt width height
                            (IllustrationRequest.enhance_faces request))
              (range MAX_RETRIES) w with
      | (Some (Ok image), w1, evs) => (Returned (Some image), w1, evs)
      | (None, w1, evs) => (Returned None, w1, evs)
      | (Some (Raise e), w1, evs) =>
          match handle_stable_diffusion_error e context w1 with
          | (Ok http, w2, _) => (Failed (RaisedHTTP http), w2, evs)
          | (Raise e2, w2, _) => (Failed (RaisedError e2), w2, evs)
          end
      end
  | _ =>
      (Failed (RaisedError
                 {| exc_type := OtherClass "IndexError";
                    exc_bases := [OtherClass "Exception"];
                    exc_str := u "tuple index out of range";
                    exc_details := [];
                    exc_request_id := [] |}),
       w, [])
  end.

End Service.

End StableDiffusionService.

(* ================================================================== *)
(** * Vocabulary of the properties *)
(* ================================================================== *)

Module Spec.
Import ErrorHandler.

(** ** Retry *)

Section Retry.
Context {S A : Type}.
Variable func : Callable (S := S) A.
Variable delay : Q.

(** The wrapped function raises a retryable fault whenever it is
    called. *)
Definition always_fails_retryably : Prop :=
  forall w, exists e w',
    func w = (Raise e, w') /\ _is_retryable_error e = true.

(** The backoff sleep after the attempt of index [attempt] takes place:
    neither the product nor [time.sleep] raises. *)
Definition backoff_sleep_takes_place (attempt : nat) : Prop :=
  backoff_wait delay attempt = Ok (delay * 2 ^ Z.of_nat attempt)%Q
  /\ time_sleep_raises (delay * 2 ^ Z.of_nat attempt)%Q = None.

(** Starting in [w] with loop index [attempt], the next [k] calls each
    raise a retryable fault and are each followed by the backoff sleep,
    which leaves the world [wk]. *)
Fixpoint after_failures (k attempt : nat) (w wk : World S) : Prop :=
  match k with
  | O => wk = w
  | Datatypes.S k' =>
      exists e w1,
        func w = (Raise e, w1) /\ _is_retryable_error e = true /\
        backoff_sleep_takes_place attempt /\
        after_failures k' (Datatypes.S attempt)
          (time_sleep (delay * 2 ^ Z.of_nat attempt)%Q w1) wk
  end.

(** The trace of [k] failed attempts from index [attempt] on, each with
    its backoff sleep. *)
Fixpoint backoff_trace (k attempt : nat) : list Event :=
  match k with
  | O => []
  | Datatypes.S k' =>
      EvCall attempt :: EvSleep (delay * 2 ^ Z.of_nat attempt)%Q
             :: backoff_trace k' (Datatypes.S attempt)
  end.
End Retry.

(** The range in which every backoff sleep of a run of [max_attempts]
    attempts takes place: a delay that is not negative, fewer than 1025
    attempts, and a longest wait, [delay * 2 ** (max_attempts - 1)], that
    [time.sleep] accepts. *)
Definition backoff_within_limits (delay : Q) (max_attempts : Z) : Prop :=
  (0 <= delay)%Q
  /\ (max_attempts <= 1024)%Z
  /\ (delay * 2 ^ (max_attempts - 1) * inject_Z (10 ^ 9)
      <= inject_Z SLEEP_MAX_NS)%Q.

(** The failure raised when the attempts run out. *)
Definition retry_failed (last : PyExc) (request_id : str) : PyExc :=
  AIServiceError (ERROR_MESSAGES_at "RETRY_FAILED")
                 [("original_error"%string, VStr (exc_str last))]
                 request_id.

(** Every class one of the two mappings or the retryable tuple names. *)
Definition enumerated_classes : list ExcClass :=
  map fst openai_error_mapping
      ++ map fst stable_diffusion_error_mapping
      ++ retryable_errors.

(** The type of a fault is none of the enumerated classes. *)
Definition type_not_enumerated (e : PyExc) : Prop :=
  ~ In (exc_type e) enumerated_classes.

(** A fault inherits from none of the retryable classes. *)
Definition inherits_no_retryable_class (e : PyExc) : Prop :=
  forall c, In c (exc_bases e) -> ~ In c retryable_errors.

(** ** Content safety *)

Import Validators.

(** One entry of one of the three groups: when it hits, and the result it
    reports. *)
Record Check := {
  hits : str -> bool;
  report : ValidationResult
}.

Definition keyword_check (keyword : str) : Check :=
  {| hits := contains keyword;
     report :=
       {| is_valid := false;
          message := u "Content contains inappropriate keywords";
          details := Some [("keyword"%string, VStr keyword)] |} |}.

Definition unsafe_check (U : UnicodeData) (p : Pattern) : Check :=
  {| hits := search U p;
     report :=
       {| is_valid := false;
          message := u "Content contains unsafe patterns";
          details := Some [("pattern"%string, VStr (pattern p))] |} |}.

Definition age_check (U : UnicodeData) (p : Pattern) : Check :=
  {| hits := search U p;
     report :=
       {| is_valid := false;
          message := u "Content not suitable for target age group";
          details := Some [("pattern"%string, VStr (pattern p))] |} |}.

(** The three groups in the order they are tried. *)
Definition ordered_checks (U : UnicodeData) (keywords : list str)
           (v : ContentValidator) : list Check :=
  map keyword_check keywords
      ++ map (unsafe_check U) (_unsafe_patterns v)
      ++ map (age_check U) (_age_patterns v).

Definition passed : ValidationResult :=
  {| is_valid := true;
     message := u "Content passed safety checks";
     details := None |}.

(** The report of the first check that hits, if any. *)
Definition first_match_verdict (checks : list Check) (text : str)
  : ValidationResult :=
  match find (fun c => hits c text) checks with
  | Some c => report c
  | None => passed
  end.

(** ** Interests *)

(** Duplicates removed, first-seen order kept: walk the sequence and keep
    an entry unless it was [seen] before. *)
Fixpoint keep_first_seen (seen l : list str) : list str :=
  match l with
  | [] => []
  | x :: rest =>
      if existsb (str_eqb x) seen then keep_first_seen seen rest
      else x :: keep_first_seen (seen ++ [x]) rest
  end.

Definition first_seen (l : list str) : list str := keep_first_seen [] l.

(** ** StoryRequest *)

Import StoryRequest.

(** The error [validate_age] raises. *)
Definition age_error (age : Z) : PyExc :=
  AIServiceError (u "Age must be between 3 and 12 years")
                 [("field", VStr (u "age")); ("value", VInt age)]%string
                 (u "validate_age").

(** [details['field']] of an exception. *)
Definition field_of (e : PyExc) : option PyVal :=
  dict_get (exc_details e) "field".

(** The [re.error] for the escape [\p] at the start of a class that
    follows [^]. *)
Definition bad_escape_p : PyExc := Re.error (u "bad escape \p") 2.

(** Every supplied value can be read back from [to_dict]. *)
Definition recovers_supplied (d : Dict) (name : str) (age : Z) (theme : str)
           (interests : list str) (notes : option str) : Prop :=
  dict_get d "character_name" = Some (VStr name) /\
  dict_get d "age" = Some (VInt age) /\
  dict_get d "theme" = Some (VStr theme) /\
  dict_get d "interests" = Some (VList (map VStr interests)) /\
  (forall n, notes = Some n ->
             dict_get d "additional_notes" = Some (VStr n)).

(** The construction succeeds and its dictionary gives every supplied
    value back. *)
Definition lossless_round_trip (U : UnicodeData) (name : str) (age : Z)
           (theme : str) (interests : list str) (notes : option str)
  : Prop :=
  exists r, StoryRequest.construct U name age theme interests notes
            = Some (Ok r)
            /\ recovers_supplied (to_dict r) name age theme interests notes.

(** ** IllustrationRequest *)

Import IllustrationRequest.

Definition in_dimension_bounds (width height : Z) : Prop :=
  (256 <= width <= 1024 /\ 256 <= height <= 1024)%Z.

Definition aspect_ratio_in_bounds (width height : Z) : Prop :=
  ((1 # 2) <= aspect_ratio width height
   /\ aspect_ratio width height <= (2 # 1))%Q.

Definition multiples_of_8 (width height : Z) : Prop :=
  (width mod 8 = 0 /\ height mod 8 = 0)%Z.

(** The three tests as the code computes them. *)
Definition in_bounds_b (w h : Z) : bool :=
  ((256 <=? w) && (w <=? 1024) && (256 <=? h) && (h <=? 1024))%Z.

Definition aspect_b (w h : Z) : bool :=
  Qle_bool (1 # 2)%Q (aspect_ratio w h)
  && Qle_bool (aspect_ratio w h) (2 # 1)%Q.

Definition multiples_b (w h : Z) : bool :=
  ((w mod 8 =? 0) && (h mod 8 =? 0))%Z.

Definition dimension_bounds_error (width height : Z) : PyExc :=
  AIServiceError
    (u "Image dimensions must be between 256 and 1024 pixels")
    [("width", VInt width); ("height", VInt height)]%string
    (u "validation_error").

Definition aspect_ratio_error (width height : Z) : PyExc :=
  AIServiceError
    (u "Image aspect ratio must be between 1:2 and 2:1")
    [("aspect_ratio", VFloat (aspect_ratio width height))]%string
    (u "validation_error").

Definition multiple_of_8_error (width height : Z) : PyExc :=
  AIServiceError
    (u "Image dimensions must be multiples of 8")
    [("width", VInt width); ("height", VInt height)]%string
    (u "validation_error").

(** An [AIServiceError] of the request validators. *)
Definition is_invalid_request (e : PyExc) : Prop :=
  exc_type e = AIServiceError_class /\
  exc_request_id e = u "validation_error".

Definition invalid_style_error (value : str) : PyExc :=
  AIServiceError (u "Invalid illustration style")
    [("provided_style", VStr value);
     ("supported_styles", VList (map VStr SUPPORTED_STYLES))]%string
    (u "validation_error").

End Spec.

Unset Implicit Arguments.

(* ================================================================== *)
(** * Concrete inputs *)
(* ================================================================== *)

Module Fixtures.
Import ErrorHandler.

(** A world whose callable state counts the calls made so far. *)
Definition world0 : World nat :=
  {| clock := 0%Q;
     uuid_pool := fun n => u "uuid-" ++ str_of_Z (Z.of_nat n);
     uuid_next := 0;
     env := 0 |}.

Definition count_call (w : World nat) : World nat :=
  {| clock := clock w;
     uuid_pool := uuid_pool w;
     uuid_next := uuid_next w;
     env := Datatypes.S (env w) |}.

Definition provider_fault (c : ExcClass) (text : string) : PyExc :=
  {| exc_type := c;
     exc_bases := [OtherClass "Exception"];
     exc_str := u text;
     exc_details := [];
     exc_request_id := [] |}.

Definition rate_limited : PyExc :=
  provider_fault openai_RateLimitError "rate limited".

Definition bad_request : PyExc :=
  provider_fault openai_InvalidRequestError "bad request".

Definition value_error : PyExc :=
  provider_fault (OtherClass "ValueError") "boom".

(** An operation that raises [e] on every call. *)
Definition always_raises (e : PyExc) : Callable (S := nat) Z :=
  fun w => (Raise e, count_call w).

(** An operation that raises [e] on its first [n] calls and returns [v]
    from then on. *)
Definition fails_first (n : nat) (e : PyExc) (v : Z)
  : Callable (S := nat) Z :=
  fun w => if (env w <? n)%nat then (Raise e, count_call w)
           else (Ok v, count_call w).

(** [A WEAPON] with the second word in fullwidth capitals. *)
Definition a_fullwidth_weapon : str :=
  u "A " ++ [65335; 65317; 65313; 65328; 65327; 65326]%N.

Definition no_context : ErrorContext :=
  {| ctx_start_time := None; ctx_other := [] |}.

(** An instance as [validate_interests] finds it. *)
Definition space_space_art : StoryRequest.t :=
  {| StoryRequest.character_name := u "Mia";
     StoryRequest.age := 8;
     StoryRequest.theme := u "Adventure";
     StoryRequest.interests := map u ["space"; "space"; "art"]%string;
     StoryRequest.additional_notes := None |}.

(** Thirty-one letters. *)
Definition thirty_one_letters : str := repeat 97%N 31.

(** The valid request of [tests/test_story_generation.py], with a given
    age: the instance that holds its fields as they are supplied. *)
Definition test_child (age : Z) : StoryRequest.t :=
  {| StoryRequest.character_name := u "Test Child";
     StoryRequest.age := age;
     StoryRequest.theme := u "Adventure";
     StoryRequest.interests := map u ["space"; "dinosaurs"]%string;
     StoryRequest.additional_notes := Some (u "Loves science") |}.

(** The construction the test suite makes from it. *)
Definition construct_test_child (U : UnicodeData) (age : Z)
  : option (Result StoryRequest.t) :=
  StoryRequest.construct U (u "Test Child") age (u "Adventure")
                         (map u ["space"; "dinosaurs"]%string)
                         (Some (u "Loves science")).

End Fixtures.

(* ================================================================== *)
(** * Vocabulary of the further properties *)
(* ================================================================== *)


Module More.
Import ErrorHandler.

(** The sum of a list of durations. *)
Fixpoint Qsum (l : list Q) : Q :=
  match l with
  | [] => 0%Q
  | q :: l' => (q + Qsum l')%Q
  end.

(** A decorated function used as a callable itself: its outcome and the
    world it leaves, without the trace of its own attempts. *)
Definition as_callable {S A : Type}
           (run : World S -> Result A * World S * list Event)
  : Callable (S := S) A :=
  fun w => let '(r, w', _) := run w in (r, w').

(** The [RETRY_FAILED] error. *)
Definition is_retry_failed (e : PyExc) : Prop :=
  exc_type e = AIServiceError_class /\
  exc_str e = ERROR_MESSAGES_at "RETRY_FAILED".

(** The keys of a class-keyed mapping do not include [c]. *)
Definition not_a_key (m : ErrorMapping) (c : ExcClass) : Prop :=
  forall k, In k (map fst m) -> ExcClass_eqb c k = false.

(** A fault of a class of the caller's own that inherits from the
    provider's rate-limit error. *)
Definition throttled : PyExc :=
  {| exc_type := OtherClass "ThrottledError";
     exc_bases := [openai_RateLimitError; OtherClass "Exception"];
     exc_str := u "slow down";
     exc_details := [];
     exc_request_id := [] |}.

Definition openai_statuses : list Z := [400; 422; 429; 500; 504]%Z.
Definition stable_diffusion_statuses : list Z := [400; 429; 500]%Z.

(** A word as [str.split()] produces them: not empty, no whitespace. *)
Definition is_word (U : UnicodeData) (w : str) : Prop :=
  w <> [] /\ forallb (fun c => negb (isspace U c)) w = true.

(** The same request with empty instead of absent notes. *)
Definition space_space_art_empty_notes : StoryRequest.t :=
  {| StoryRequest.character_name := u "Mia";
     StoryRequest.age := 8;
     StoryRequest.theme := u "Adventure";
     StoryRequest.interests := map u ["space"; "space"; "art"]%string;
     StoryRequest.additional_notes := Some [] |}.

(** The markup characters: angle brackets, both quotes, braces, square
    brackets and the backslash. *)
Definition markup_chars : str :=
  [60; 62; 34; 39; 123; 125; 91; 93; 92]%N.

(** A request with a given age, for the age validators. *)
Definition aged (age : Z) : StoryRequest.t :=
  {| StoryRequest.character_name := u "Mia";
     StoryRequest.age := age;
     StoryRequest.theme := u "Adventure";
     StoryRequest.interests := [u "space"];
     StoryRequest.additional_notes := None |}.

(** A float printer for running the definitions. *)
Definition str_of_float0 (q : Q) : str :=
  str_of_Z (Qnum q) ++ u "/" ++ str_of_Z (Zpos (Qden q)).

(** The body took no more than the validation timeout. *)
Definition within_timeout (elapsed : Q) : Prop :=
  (elapsed * inject_Z 1000 <= inject_Z ValidationUtils.VALIDATION_TIMEOUT)%Q.

(** The traces the generation loop can leave: one, two or three provider
    calls, with sleeps of 1 s and 2 s between them. *)
Definition generation_backoff (attempt : nat) : Event :=
  EvSleep (StableDiffusionService.RETRY_DELAY * 2 ^ Z.of_nat attempt)%Q.

Definition generation_traces : list (list Event) :=
  [ [EvCall 0];
    [EvCall 0; generation_backoff 0; EvCall 1];
    [EvCall 0; generation_backoff 0; EvCall 1; generation_backoff 1;
     EvCall 2] ].

Definition three_calls : list Event :=
  [EvCall 0; generation_backoff 0; EvCall 1; generation_backoff 1; EvCall 2].

(** The provider raises [e] whenever it is called. *)
Definition provider_always_raises {S : Type} (e : PyExc)
           (client_generate :
              str -> Z -> Z -> Z
              -> Callable (S := S) (list StableDiffusionService.Answer))
  : Prop :=
  forall p width height seed w,
    exists w', client_generate p width height seed w = (Raise e, w').

(** Collaborators for running the service. *)
Definition rejecting_client (e : PyExc)
  : str -> Z -> Z -> Z
    -> Callable (S := nat) (list StableDiffusionService.Answer) :=
  fun _ _ _ _ w => (Raise e, Fixtures.count_call w).

Definition plain_render (binary : StableDiffusionService.bytes) (_ : bool)
  : Result StableDiffusionService.bytes := Ok binary.

Definition invalid_upstream : PyExc :=
  Fixtures.provider_fault stability_InvalidRequestError "bad prompt".

Definition dragon_request : IllustrationRequest.t :=
  {| IllustrationRequest.prompt := u "A friendly dragon reading books";
     IllustrationRequest.style := u "children's book";
     IllustrationRequest.size := [512; 512]%Z;
     IllustrationRequest.enhance_faces := true |}.

End More.

(* ================================================================== *)
(** * The retry wrapper *)
(* ================================================================== *)

Section RetryFacts.
Import ErrorHandler Spec.
Context {S A : Type}.
Variable func : Callable (S := S) A.
Variable delay : Q.

Lemma retry_loop_returns attempt rest last w v w' :
  func w = (Ok v, w') ->
  retry_loop delay func (attempt :: rest) last w = (Ok v, w', [EvCall attempt]).
Proof. intros H. simpl. now rewrite H. Qed.

Lemma retry_loop_reraises attempt rest last w e w' :
  func w = (Raise e, w') ->
  _is_retryable_error e = false ->
  retry_loop delay func (attempt :: rest) last w
  = (Raise e, w', [EvCall attempt]).
Proof. intros H Hr. simpl. now rewrite H, Hr. Qed.

Lemma retry_loop_backs_off attempt rest last w e w' :
  func w = (Raise e, w') ->
  _is_retryable_error e = true ->
  backoff_sleep_takes_place delay attempt ->
  retry_loop delay func (attempt :: rest) last w
  = let wait_time := (delay * 2 ^ Z.of_nat attempt)%Q in
    let '(r, w2, evs) :=
      retry_loop delay func rest (Some e) (time_sleep wait_time w') in
    (r, w2, EvCall attempt :: EvSleep wait_time :: evs).
Proof.
  intros H Hr [Hb Hs]. cbn [retry_loop]. rewrite H, Hr. cbn [negb].
  now rewrite Hb, Hs.
Qed.

Lemma retry_loop_exhausted last w :
  retry_loop delay func [] last w
  = (Raise (AIServiceError (ERROR_MESSAGES_at "RETRY_FAILED")
              [("original_error"%string, VStr (str_of_last last))]
              (fst (uuid4 w))),
     snd (uuid4 w), []).
Proof. reflexivity. Qed.

(** [k] retryable failures are each followed by their backoff sleep, and
    a success at the next index ends the loop there. *)
Lemma retry_loop_succeeds_after k :
  forall attempt rest last w wk v w',
    after_failures func delay k attempt w wk ->
    func wk = (Ok v, w') ->
    retry_loop delay func (seq attempt (Datatypes.S k) ++ rest) last w
    = (Ok v, w', backoff_trace delay k attempt ++ [EvCall (attempt + k)]).
Proof.
  induction k as [|k IH]; intros attempt rest last w wk v w' Hk Hok.
  - simpl in Hk. subst wk. cbn [seq app backoff_trace].
    rewrite Nat.add_0_r. now apply retry_loop_returns.
  - destruct Hk as (e & w1 & Hf & Hr & Hs & Hk).
    change (seq attempt (Datatypes.S (Datatypes.S k)) ++ rest)
      with (attempt :: (seq (Datatypes.S attempt) (Datatypes.S k) ++ rest)).
    rewrite (retry_loop_backs_off _ _ _ _ _ _ Hf Hr Hs). cbv zeta.
    rewrite (IH _ rest (Some e) _ _ _ _ Hk Hok).
    cbn [backoff_trace app]. now rewrite Nat.add_succ_comm.
Qed.

Lemma range_cons n : (1 <= n)%Z -> range n = 0%nat :: seq 1 (Z.to_nat n - 1).
Proof.
  intros H. unfold range.
  replace (Z.to_nat n) with (Datatypes.S (Z.to_nat n - 1)) at 1 by lia.
  reflexivity.
Qed.

Lemma range_split n k :
  (Z.of_nat k < n)%Z ->
  range n = seq 0 (Datatypes.S k)
                ++ seq (Datatypes.S k) (Z.to_nat n - Datatypes.S k).
Proof.
  intros H. unfold range. rewrite <- seq_app. f_equal. lia.
Qed.

(** A fault that is not retryable ends the first attempt and the run. *)
Lemma retry_reraises_at_once max_attempts w e w' :
  (1 <= max_attempts)%Z ->
  func w = (Raise e, w') ->
  _is_retryable_error e = false ->
  retry max_attempts delay func w = (Raise e, w', [EvCall 0]).
Proof.
  intros Hm Hf Hr. unfold retry. rewrite (range_cons max_attempts Hm).
  now apply retry_loop_reraises.
Qed.

End RetryFacts.

Section RetryClaims.
Import ErrorHandler Spec Fixtures.

(** C1.  At [max_attempts = 3] with the default delay of 1.5 s, around an
    operation that raises [openai.error.RateLimitError] on every call,
    the wrapper calls the operation three times and raises the
    [RETRY_FAILED] error carrying the text of the last fault, as claimed;
    but the last thing it does before raising is sleep
    [1.5 * 2 ** 2 = 6] seconds after the third and final attempt, so the
    clock stands at 10.5 s, not 4.5 s, when the failure is produced. *)
Theorem retry_sleeps_after_final_attempt :
  let '(r, w, evs) := retry 3 RETRY_DELAY (always_raises rate_limited) world0 in
  r = Raise (retry_failed rate_limited (u "uuid-0")) /\
  calls evs = 3%nat /\
  env w = 3%nat /\
  evs = [EvCall 0; EvSleep (RETRY_DELAY * 2 ^ 0)%Q;
         EvCall 1; EvSleep (RETRY_DELAY * 2 ^ 1)%Q;
         EvCall 2; EvSleep (RETRY_DELAY * 2 ^ 2)%Q] /\
  (RETRY_DELAY * 2 ^ 2 == 6)%Q /\
  (clock w == 21 # 2)%Q.
Proof.
  vm_compute. repeat split; reflexivity.
Qed.

(** C2.  With at least one attempt allowed: an operation whose call
    raises a fault that is not retryable is called exactly once, the
    fault itself is re-raised, and nothing is slept; and an operation
    that succeeds at attempt [k] (after [k] retryable failures) has its
    result returned by that attempt, with no sleep or call after it. *)
Theorem retry_stops_at_first_decisive_outcome
        {S A : Type} (func : Callable (S := S) A) (delay : Q)
        (max_attempts : Z) (w : World S) :
  (1 <= max_attempts)%Z ->
  (forall e w',
      func w = (Raise e, w') ->
      _is_retryable_error e = false ->
      let '(r, w2, evs) := retry max_attempts delay func w in
      r = Raise e /\ w2 = w' /\ evs = [EvCall 0]
      /\ calls evs = 1%nat /\ sleeps evs = [])
  /\
  (forall k wk v w',
      (Z.of_nat k < max_attempts)%Z ->
      after_failures func delay k 0 w wk ->
      func wk = (Ok v, w') ->
      let '(r, w2, evs) := retry max_attempts delay func w in
      r = Ok v /\ w2 = w'
      /\ evs = backoff_trace delay k 0 ++ [EvCall k]).
Proof.
  intros Hm. split.
  - intros e w' Hf Hr.
    rewrite (@retry_reraises_at_once _ _ func delay max_attempts w e w' Hm Hf Hr).
    repeat split; reflexivity.
  - intros k wk v w' Hk Ha Hok. unfold retry.
    rewrite (range_split max_attempts k Hk).
    rewrite (@retry_loop_succeeds_after _ _ func delay k 0%nat _ None w wk v w' Ha Hok).
    repeat split; reflexivity.
Qed.

Lemma retry_stops_at_first_decisive_outcome_witness :
  (let '(r, w2, evs) := retry 3 RETRY_DELAY (always_raises bad_request) world0 in
   r = Raise bad_request /\ w2 = count_call world0 /\ evs = [EvCall 0]
   /\ calls evs = 1%nat /\ sleeps evs = [])
  /\
  (let '(r, w2, evs) :=
     retry 3 RETRY_DELAY (fails_first 2 rate_limited 42) world0 in
   r = Ok 42%Z
   /\ w2 = count_call
             (time_sleep (RETRY_DELAY * 2 ^ 1)%Q
                (count_call
                   (time_sleep (RETRY_DELAY * 2 ^ 0)%Q (count_call world0))))
   /\ evs = backoff_trace RETRY_DELAY 2 0 ++ [EvCall 2]).
Proof.
  split.
  - apply (proj1 (@retry_stops_at_first_decisive_outcome
                    nat Z (always_raises bad_request) RETRY_DELAY 3 world0
                    ltac:(lia))
                 bad_request (count_call world0));
      reflexivity.
  - apply (proj2 (@retry_stops_at_first_decisive_outcome
                    nat Z (fails_first 2 rate_limited 42) RETRY_DELAY 3
                    world0 ltac:(lia))
                 2%nat
                 (time_sleep (RETRY_DELAY * 2 ^ 1)%Q
                    (count_call
                       (time_sleep (RETRY_DELAY * 2 ^ 0)%Q
                          (count_call world0))))
                 42%Z).
    + reflexivity.
    + simpl. eexists _, _. split; [reflexivity|]. split; [reflexivity|].
      split; [split; reflexivity|].
      eexists _, _. split; [reflexivity|]. split; [reflexivity|].
      split; [split; reflexivity|]. reflexivity.
    + reflexivity.
Defined.

End RetryClaims.

(* ================================================================== *)
(** * The error taxonomy *)
(* ================================================================== *)

Section TaxonomyFacts.
Import ErrorHandler Spec.

Lemma ExcClass_eqb_eq a b : ExcClass_eqb a b = true <-> a = b.
Proof.
  destruct a, b; cbn; split; intros H;
    try reflexivity; try discriminate H.
  - apply String.eqb_eq in H. now subst.
  - injection H as ->. apply String.eqb_refl.
Qed.

Lemma existsb_none {X : Type} (f : X -> bool) (l : list X) :
  (forall x, In x l -> f x = false) -> existsb f l = false.
Proof.
  intros H. destruct (existsb f l) eqn:E; [|reflexivity].
  apply existsb_exists in E. destruct E as (x & Hx & Hf).
  rewrite (H x Hx) in Hf. discriminate Hf.
Qed.

Lemma mapping_get_absent m ty default :
  (forall c, In c (map fst m) -> ExcClass_eqb ty c = false) ->
  mapping_get m ty default = default.
Proof.
  induction m as [|[c v] m IH]; intros H; [reflexivity|].
  cbn [mapping_get]. rewrite (H c (or_introl eq_refl)).
  apply IH. intros c' Hc'. apply H. now right.
Qed.

(** A type that is not enumerated is no key of a mapping whose keys are
    enumerated. *)
Lemma type_not_enumerated_absent e m default :
  type_not_enumerated e ->
  (forall c, In c (map fst m) -> In c enumerated_classes) ->
  mapping_get m (exc_type e) default = default.
Proof.
  intros He Hm. apply mapping_get_absent. intros c Hc.
  destruct (ExcClass_eqb (exc_type e) c) eqn:E; [|reflexivity].
  apply ExcClass_eqb_eq in E. exfalso. apply He. rewrite E. now apply Hm.
Qed.

Lemma openai_keys_enumerated c :
  In c (map fst openai_error_mapping) -> In c enumerated_classes.
Proof. intros H. unfold enumerated_classes. apply in_or_app. now left. Qed.

Lemma stable_diffusion_keys_enumerated c :
  In c (map fst stable_diffusion_error_mapping) -> In c enumerated_classes.
Proof.
  intros H. unfold enumerated_classes. apply in_or_app. right.
  apply in_or_app. now left.
Qed.

Lemma retryable_enumerated c :
  In c retryable_errors -> In c enumerated_classes.
Proof.
  intros H. unfold enumerated_classes. apply in_or_app. right.
  apply in_or_app. now right.
Qed.

(** A fault whose type is not enumerated and which inherits from no
    retryable class is not retryable. *)
Lemma unlisted_not_retryable e :
  type_not_enumerated e -> inherits_no_retryable_class e ->
  _is_retryable_error e = false.
Proof.
  intros Ht Hb. unfold _is_retryable_error, isinstance.
  apply existsb_none. intros c Hc. apply existsb_none. intros x Hx.
  destruct (ExcClass_eqb c x) eqn:E; [|reflexivity].
  apply ExcClass_eqb_eq in E. subst x. exfalso.
  destruct Hx as [Hx | Hx].
  - apply Ht. rewrite Hx. now apply retryable_enumerated.
  - exact (Hb c Hx Hc).
Qed.

End TaxonomyFacts.

Section TaxonomyClaims.
Import ErrorHandler Spec Fixtures More.

(** Run a decorated handler up to the lookup in its mapping. *)
Ltac run_handler :=
  unfold handle_openai_error, handle_stable_diffusion_error, retry,
    handle_openai_error_body, handle_stable_diffusion_error_body;
  change (range MAX_RETRIES) with [0; 1; 2]%nat;
  cbn [retry_loop uuid4].

(** Close the goal once the lookup has returned the default entry. *)
Ltac default_entry :=
  split; [reflexivity|];
  eexists; split; [reflexivity|]; split; reflexivity.

(** C8, as stated, fails: the type of [throttled] is none of the
    enumerated classes, but the class inherits from the provider's
    rate-limit error, so [_is_retryable_error], which tests with
    [isinstance], answers [True], and the retry wrapper calls an operation
    that raises it three times, sleeping after each call, before it gives
    up with [RETRY_FAILED]. *)
Lemma unlisted_subclass_of_retryable_is_retried :
  type_not_enumerated throttled
  /\ _is_retryable_error throttled = true
  /\ (let '(r, _, evs) :=
        retry 3 RETRY_DELAY (always_raises throttled) world0 in
      r = Raise (retry_failed throttled (u "uuid-0"))
      /\ calls evs = 3%nat
      /\ List.length (sleeps evs) = 3%nat).
Proof.
  split; [|split].
  - intros H. cbn in H.
    repeat (destruct H as [H | H]; [discriminate H|]). exact H.
  - reflexivity.
  - vm_compute. repeat split; reflexivity.
Qed.

(** C8, amended.  A fault whose type is none of the enumerated classes is
    mapped by both provider handlers to status 500 with the [API_ERROR]
    message, whatever it inherits from.  If it also inherits from none of
    the retryable classes, [_is_retryable_error] answers [False] for it,
    and a retry wrapper whose operation raises it calls the operation
    once, sleeps nowhere and re-raises it. *)
Theorem unlisted_fault_is_api_error_and_not_retried
        {S A : Type} (e : PyExc) :
  type_not_enumerated e ->
  (forall (context : ErrorContext) (w : World S),
      let '(r, _, evs) := handle_openai_error e context w in
      evs = [EvCall 0] /\
      exists http, r = Ok http /\ status_code http = 500%Z /\
        detail_message (detail http)
        = Some (VStr (ERROR_MESSAGES_at "API_ERROR")))
  /\
  (forall (context : ErrorContext) (w : World S),
      let '(r, _, evs) := handle_stable_diffusion_error e context w in
      evs = [EvCall 0] /\
      exists http, r = Ok http /\ status_code http = 500%Z /\
        detail_message (detail http)
        = Some (VStr (ERROR_MESSAGES_at "API_ERROR")))
  /\
  (inherits_no_retryable_class e ->
   _is_retryable_error e = false
   /\
   forall (func : Callable (S := S) A) (delay : Q) (max_attempts : Z)
          (w w' : World S),
     (1 <= max_attempts)%Z ->
     func w = (Raise e, w') ->
     retry max_attempts delay func w = (Raise e, w', [EvCall 0])).
Proof.
  intros H. split; [|split].
  - intros context w. run_handler.
    rewrite (type_not_enumerated_absent e _ _ H openai_keys_enumerated).
    default_entry.
  - intros context w. run_handler.
    rewrite (type_not_enumerated_absent e _ _ H
               stable_diffusion_keys_enumerated).
    default_entry.
  - intros Hb.
    pose proof (unlisted_not_retryable e H Hb) as Hr.
    split; [exact Hr|].
    intros func delay max_attempts w w' Hm Hf.
    now apply retry_reraises_at_once.
Qed.

Lemma unlisted_fault_is_api_error_and_not_retried_witness :
  (let '(r, _, evs) := handle_openai_error value_error no_context world0 in
   evs = [EvCall 0] /\
   exists http, r = Ok http /\ status_code http = 500%Z /\
     detail_message (detail http)
     = Some (VStr (u "External API error occurred.")))
  /\ _is_retryable_error value_error = false
  /\ retry 3 RETRY_DELAY (always_raises value_error) world0
     = (Raise value_error, count_call world0, [EvCall 0]).
Proof.
  assert (Ht : type_not_enumerated value_error).
  { intros H. cbn in H.
    repeat (destruct H as [H | H]; [discriminate H|]). exact H. }
  assert (Hb : inherits_no_retryable_class value_error).
  { intros c [<- | []] H. cbn in H.
    repeat (destruct H as [H | H]; [discriminate H|]). exact H. }
  pose proof (@unlisted_fault_is_api_error_and_not_retried
                nat Z value_error Ht) as (Ho & _ & Hn).
  destruct (Hn Hb) as [Hr Hw].
  split; [exact (Ho no_context world0)|].
  split; [exact Hr|].
  apply Hw; [lia | reflexivity].
Defined.

End TaxonomyClaims.

(* ================================================================== *)
(** * Content safety *)
(* ================================================================== *)

Section ContentSafetyFacts.
Import Validators Spec.
Variable U : UnicodeData.

Lemma first_match_verdict_miss c rest t :
  hits c t = false ->
  first_match_verdict (c :: rest) t = first_match_verdict rest t.
Proof. intros H. unfold first_match_verdict. cbn [find]. now rewrite H. Qed.

Lemma first_match_verdict_hit c rest t :
  hits c t = true -> first_match_verdict (c :: rest) t = report c.
Proof. intros H. unfold first_match_verdict. cbn [find]. now rewrite H. Qed.

Lemma scan_age_verdict t age_patterns :
  scan_age U t age_patterns
  = first_match_verdict (map (age_check U) age_patterns) t.
Proof.
  induction age_patterns as [|p rest IH]; [reflexivity|].
  cbn [scan_age map]. destruct (search U p t) eqn:E.
  - now rewrite first_match_verdict_hit.
  - now rewrite first_match_verdict_miss.
Qed.

Lemma scan_unsafe_verdict t age_patterns unsafe_patterns :
  scan_unsafe U t age_patterns unsafe_patterns
  = first_match_verdict
      (map (unsafe_check U) unsafe_patterns
           ++ map (age_check U) age_patterns) t.
Proof.
  induction unsafe_patterns as [|p rest IH].
  - apply scan_age_verdict.
  - cbn [scan_unsafe map app]. destruct (search U p t) eqn:E.
    + now rewrite first_match_verdict_hit.
    + now rewrite first_match_verdict_miss.
Qed.

Lemma scan_keywords_verdict t v keywords :
  scan_keywords U t (_unsafe_patterns v) (_age_patterns v) keywords
  = first_match_verdict (ordered_checks U keywords v) t.
Proof.
  unfold ordered_checks. induction keywords as [|k rest IH].
  - apply scan_unsafe_verdict.
  - cbn [scan_keywords map app]. destruct (contains k t) eqn:E.
    + now rewrite first_match_verdict_hit.
    + now rewrite first_match_verdict_miss.
Qed.

(** The first check that hits decides, whatever comes after it. *)
Lemma first_match_verdict_first before c after t :
  (forall b, In b before -> hits b t = false) ->
  hits c t = true ->
  first_match_verdict (before ++ c :: after) t = report c.
Proof.
  induction before as [|b before IH]; intros Hb Hc.
  - now apply first_match_verdict_hit.
  - cbn [app]. rewrite first_match_verdict_miss.
    + apply IH; [|assumption]. intros b' Hb'. apply Hb. now right.
    + apply Hb. now left.
Qed.

Lemma first_match_verdict_none checks t :
  (forall c, In c checks -> hits c t = false) ->
  first_match_verdict checks t = passed.
Proof.
  induction checks as [|c checks IH]; intros H; [reflexivity|].
  rewrite first_match_verdict_miss.
  - apply IH. intros c' Hc'. apply H. now right.
  - apply H. now left.
Qed.

Lemma ordered_checks_report_invalid keywords v c :
  In c (ordered_checks U keywords v) -> is_valid (report c) = false.
Proof.
  unfold ordered_checks. rewrite !in_app_iff, !in_map_iff.
  intros [(k & <- & _) | [(p & <- & _) | (p & <- & _)]]; reflexivity.
Qed.

Lemma first_match_verdict_some checks t :
  (exists c, In c checks /\ hits c t = true) ->
  exists c, In c checks /\ hits c t = true
            /\ first_match_verdict checks t = report c.
Proof.
  induction checks as [|c checks IH]; intros (c0 & Hin & Hh).
  - destruct Hin.
  - destruct (hits c t) eqn:E.
    + exists c. repeat split; [now left | assumption |].
      now apply first_match_verdict_hit.
    + destruct Hin as [-> | Hin]; [congruence|].
      destruct IH as (c1 & Hin1 & Hh1 & Hv); [now exists c0|].
      exists c1. repeat split; [now right | assumption |].
      now rewrite first_match_verdict_miss.
Qed.

End ContentSafetyFacts.

Section ContentSafetyClaims.
Import Validators Spec Fixtures.




End ContentSafetyClaims.

(* ================================================================== *)
(** * Strings and sequences *)
(* ================================================================== *)

Section StringFacts.

Lemma str_eqb_eq a : forall b, str_eqb a b = true <-> a = b.
Proof.
  induction a as [|x a IH]; intros [|y b]; cbn [str_eqb];
    try (split; [discriminate | congruence]); [tauto|].
  rewrite andb_true_iff, N.eqb_eq, IH. split.
  - now intros [-> ->].
  - intros E. injection E as -> ->. tauto.
Qed.

Lemma str_eqb_refl a : str_eqb a a = true.
Proof. now apply str_eqb_eq. Qed.

Lemma existsb_str_eqb x l : existsb (str_eqb x) l = true <-> In x l.
Proof.
  rewrite existsb_exists. split.
  - intros (y & Hy & E). apply str_eqb_eq in E. now subst.
  - intros H. exists x. split; [assumption | apply str_eqb_refl].
Qed.

Lemma existsb_str_eqb_false x l : existsb (str_eqb x) l = false <-> ~ In x l.
Proof.
  rewrite <- existsb_str_eqb. destruct (existsb (str_eqb x) l); split;
    congruence.
Qed.

Variable U : UnicodeData.

(** Every character of a word of [s.split()] is a character of [s] (or of
    the word being read). *)
Lemma split_from_chars s :
  forall word w c,
    In w (split_from U word s) -> In c w -> In c word \/ In c s.
Proof.
  induction s as [|x s IH]; intros word w c Hw Hc; cbn [split_from] in Hw.
  - destruct word as [|y word]; [destruct Hw|].
    destruct Hw as [<- | []]. left. now apply in_rev.
  - destruct (isspace U x).
    + destruct word as [|y word].
      * destruct (IH _ _ _ Hw Hc) as [[] | H]. right. now right.
      * destruct Hw as [<- | Hw].
        -- left. now apply in_rev.
        -- destruct (IH _ _ _ Hw Hc) as [[] | H]. right. now right.
    + destruct (IH _ _ _ Hw Hc) as [[<- | H] | H].
      * right. now left.
      * now left.
      * right. now right.
Qed.

Lemma join_chars sep words c :
  In c (join sep words) -> In c sep \/ exists w, In w words /\ In c w.
Proof.
  induction words as [|w words IH]; cbn [join]; [intros []|].
  destruct words as [|w' words].
  - intros H. right. exists w. split; [now left | assumption].
  - rewrite !in_app_iff. intros [H | [H | H]].
    + right. exists w. split; [now left | assumption].
    + now left.
    + destruct (IH H) as [Hs | (w0 & Hw0 & Hc)]; [now left|].
      right. exists w0. split; [now right | assumption].
Qed.

End StringFacts.

Section FirstSeenFacts.
Import StoryRequest Spec.

Lemma fold_dict_insert_key l :
  forall d, fold_left dict_insert_key l d = d ++ keep_first_seen d l.
Proof.
  induction l as [|x l IH]; intros d; cbn [fold_left keep_first_seen].
  - now rewrite app_nil_r.
  - rewrite IH. unfold dict_insert_key.
    destruct (existsb (str_eqb x) d); [reflexivity|].
    now rewrite <- app_assoc.
Qed.

(** [list(dict.fromkeys(l))] keeps the first occurrence of every entry. *)
Lemma list_dict_fromkeys_first_seen l : list_dict_fromkeys l = first_seen l.
Proof. unfold list_dict_fromkeys. now rewrite fold_dict_insert_key. Qed.

Lemma keep_first_seen_In l :
  forall seen x, In x (keep_first_seen seen l) <-> In x l /\ ~ In x seen.
Proof.
  induction l as [|y l IH]; intros seen x; cbn [keep_first_seen In].
  - tauto.
  - destruct (existsb (str_eqb y) seen) eqn:E.
    + apply existsb_str_eqb in E. rewrite IH. split.
      * tauto.
      * intros [[-> | H] Hn]; [contradiction | tauto].
    + apply existsb_str_eqb_false in E. cbn [In]. rewrite IH, in_app_iff.
      cbn [In]. split.
      * intros [-> | [H Hn]]; [tauto|]. split; [tauto|]. tauto.
      * intros [[-> | H] Hn]; [tauto|].
        destruct (list_eq_dec N.eq_dec y x) as [-> | Hne]; [tauto|].
        right. split; [assumption|]. intros [H' | [H' | []]]; tauto.
Qed.

Lemma keep_first_seen_NoDup l : forall seen, NoDup (keep_first_seen seen l).
Proof.
  induction l as [|y l IH]; intros seen; cbn [keep_first_seen].
  - constructor.
  - destruct (existsb (str_eqb y) seen); [apply IH|].
    constructor; [|apply IH].
    rewrite keep_first_seen_In, in_app_iff. cbn [In]. tauto.
Qed.

Lemma keep_first_seen_fixed l :
  forall seen,
    NoDup l -> (forall x, In x l -> ~ In x seen) ->
    keep_first_seen seen l = l.
Proof.
  induction l as [|y l IH]; intros seen Hnd Hs; [reflexivity|].
  cbn [keep_first_seen]. inversion Hnd as [|? ? Hy Hl]; subst.
  assert (E : existsb (str_eqb y) seen = false).
  { apply existsb_str_eqb_false. apply Hs. now left. }
  rewrite E. f_equal. apply IH; [assumption|].
  intros x Hx. rewrite in_app_iff. cbn [In].
  intros [H | [-> | []]]; [|contradiction].
  apply (Hs x); [now right | assumption].
Qed.

Lemma first_seen_In l x : In x (first_seen l) <-> In x l.
Proof. unfold first_seen. rewrite keep_first_seen_In. cbn [In]. tauto. Qed.

Lemma first_seen_NoDup l : NoDup (first_seen l).
Proof. apply keep_first_seen_NoDup. Qed.

Lemma first_seen_fixed l : NoDup l -> first_seen l = l.
Proof. intros H. apply keep_first_seen_fixed; [assumption|]. now intros x _ []. Qed.

End FirstSeenFacts.

(* ================================================================== *)
(** * StoryRequest *)
(* ================================================================== *)

Section StoryRequestFacts.
Import StoryRequest Spec.

Lemma validate_age_in_range self :
  (3 <= age self <= 12)%Z -> validate_age self = Ok true.
Proof.
  intros [H1 H2]. unfold validate_age, MIN_AGE, MAX_AGE.
  apply Z.leb_le in H1, H2. now rewrite H1, H2.
Qed.

Lemma validate_age_out_of_range self :
  (age self < 3 \/ 12 < age self)%Z ->
  validate_age self = Raise (age_error (age self)).
Proof.
  intros H. unfold validate_age, MIN_AGE, MAX_AGE.
  assert (E : (3 <=? age self)%Z && (age self <=? 12)%Z = false).
  { apply andb_false_iff. rewrite !Z.leb_gt. lia. }
  rewrite E. reflexivity.
Qed.

Lemma validate_age_inv self b :
  validate_age self = Ok b -> (3 <= age self <= 12)%Z.
Proof.
  intros H.
  destruct (Z_le_dec 3 (age self)) as [H1|H1];
    [destruct (Z_le_dec (age self) 12) as [H2|H2]; [lia|]|];
    rewrite validate_age_out_of_range in H by lia; discriminate.
Qed.

(** The standard [re] module has no escape [\p]: neither pattern of the
    module compiles, so executing the module ends in [re.error] at its
    first [re.compile], and so does every construction. *)
Lemma name_pattern_rejected :
  Re.compile NAME_PATTERN_source = Some (Raise bad_escape_p).
Proof. vm_compute. reflexivity. Qed.

Lemma interest_pattern_rejected :
  Re.compile INTEREST_PATTERN_source = Some (Raise bad_escape_p).
Proof. vm_compute. reflexivity. Qed.

Lemma import_module_raises : import_module = Some (Raise bad_escape_p).
Proof. unfold import_module. now rewrite name_pattern_rejected. Qed.

Lemma construct_raises U name age theme interests notes :
  construct U name age theme interests notes = Some (Raise bad_escape_p).
Proof. unfold construct. now rewrite import_module_raises. Qed.

Lemma to_dict_recovers_fields self :
  truthy (additional_notes self) = true \/ additional_notes self = None ->
  recovers_supplied (to_dict self) (character_name self) (age self)
                    (theme self) (interests self) (additional_notes self).
Proof.
  intros H. unfold recovers_supplied, to_dict.
  destruct (additional_notes self) as [[|c n]|] eqn:E; cbn [truthy app] in *.
  - destruct H as [H|H]; discriminate H.
  - repeat split; try reflexivity. intros n0 Hn. now injection Hn as <-.
  - repeat split; try reflexivity. intros n0 Hn. discriminate Hn.
Qed.

End StoryRequestFacts.

Section StoryRequestClaims.
Import ErrorHandler StoryRequest Spec Fixtures.

(** C4.  The step that removes duplicates, [list(dict.fromkeys(...))],
    keeps the first occurrence of every interest in order, as the claim
    says.  But it is never reached: [INTEREST_PATTERN] is written with
    the escape [\p{L}], which the standard [re] module rejects, so the
    import of the module raises [re.error] and the construction of
    [["space", "space", "art"]] ends in that error instead of an instance
    whose interests are [["space", "art"]]. *)
Theorem duplicate_interests_stopped_by_pattern_error (U : UnicodeData) :
  (forall l, list_dict_fromkeys l = first_seen l)
  /\ first_seen (map u ["space"; "space"; "art"]%string)
     = map u ["space"; "art"]%string
  /\ Re.compile INTEREST_PATTERN_source = Some (Raise bad_escape_p)
  /\ construct U (u "Mia") 8 (u "Adventure")
               (map u ["space"; "space"; "art"]%string) None
     = Some (Raise bad_escape_p)
  /\ ~ (exists r,
          construct U (u "Mia") 8 (u "Adventure")
                    (map u ["space"; "space"; "art"]%string) None
          = Some (Ok r)).
Proof.
  split; [exact list_dict_fromkeys_first_seen|].
  split; [reflexivity|].
  split; [exact interest_pattern_rejected|].
  split; [apply construct_raises|].
  intros [r H]. rewrite construct_raises in H. discriminate H.
Qed.

(** C7.  [validate_age] raises the error that names the field [age] for
    every age outside 3..12.  But the construction of the test suite's
    request with such an age does not fail with it: the import of the
    module has already raised [re.error] for the escape [\p], which is no
    [AIServiceError] and names no field. *)
Theorem out_of_range_age_stopped_by_pattern_error
        (U : UnicodeData) (years : Z) :
  (years < 3 \/ 12 < years)%Z ->
  validate_age (test_child years) = Raise (age_error years)
  /\ field_of (age_error years) = Some (VStr (u "age"))
  /\ construct_test_child U years = Some (Raise bad_escape_p)
  /\ isinstance bad_escape_p [AIServiceError_class] = false
  /\ field_of bad_escape_p = None.
Proof.
  intros H.
  split; [exact (validate_age_out_of_range (test_child years) H)|].
  split; [reflexivity|].
  split; [exact (construct_raises U _ _ _ _ _)|].
  split; reflexivity.
Qed.

Lemma out_of_range_age_stopped_by_pattern_error_witness :
  validate_age (test_child 2) = Raise (age_error 2)
  /\ construct_test_child ascii_only 2 = Some (Raise bad_escape_p)
  /\ construct_test_child ascii_only 13 = Some (Raise bad_escape_p).
Proof.
  destruct (out_of_range_age_stopped_by_pattern_error ascii_only 2
              ltac:(lia)) as (H1 & _ & H2 & _).
  destruct (out_of_range_age_stopped_by_pattern_error ascii_only 13
              ltac:(lia)) as (_ & _ & H3 & _).
  split; [exact H1|]. split; [exact H2 | exact H3].
Defined.

(** C9.  [to_dict] gives back every field of the instance it is called
    on.  But for the valid request of the test suite no instance comes to
    exist: the construction ends in [re.error], raised by the import of
    the module for the escape [\p], so there is no round trip. *)
Theorem valid_request_stopped_by_pattern_error (U : UnicodeData) :
  recovers_supplied (to_dict (test_child 8)) (u "Test Child") 8
                    (u "Adventure") (map u ["space"; "dinosaurs"]%string)
                    (Some (u "Loves science"))
  /\ construct_test_child U 8 = Some (Raise bad_escape_p)
  /\ ~ lossless_round_trip U (u "Test Child") 8 (u "Adventure")
                           (map u ["space"; "dinosaurs"]%string)
                           (Some (u "Loves science")).
Proof.
  split; [apply (to_dict_recovers_fields (test_child 8)); now left|].
  split; [exact (construct_raises U _ _ _ _ _)|].
  intros [r [H _]]. rewrite construct_raises in H. discriminate H.
Qed.


End StoryRequestClaims.

(* ================================================================== *)
(** * IllustrationRequest *)
(* ================================================================== *)

Section IllustrationRequestFacts.
Import IllustrationRequest Spec.

Lemma in_bounds_b_spec w h :
  in_bounds_b w h = true <-> in_dimension_bounds w h.
Proof.
  unfold in_bounds_b, in_dimension_bounds.
  rewrite !andb_true_iff, !Z.leb_le. tauto.
Qed.

Lemma aspect_b_spec w h :
  aspect_b w h = true <-> aspect_ratio_in_bounds w h.
Proof.
  unfold aspect_b, aspect_ratio_in_bounds.
  rewrite andb_true_iff, !Qle_bool_iff. tauto.
Qed.

Lemma multiples_b_spec w h :
  multiples_b w h = true <-> multiples_of_8 w h.
Proof.
  unfold multiples_b, multiples_of_8.
  rewrite andb_true_iff, !Z.eqb_eq. tauto.
Qed.

(** The order of the three size checks. *)
Lemma validate_size_cases w h :
  validate_size [w; h]
  = if negb (in_bounds_b w h) then Raise (dimension_bounds_error w h)
    else if negb (aspect_b w h) then Raise (aspect_ratio_error w h)
    else if negb (multiples_b w h) then Raise (multiple_of_8_error w h)
    else Ok [w; h].
Proof.
  unfold validate_size, validate_image_dimensions, in_bounds_b, aspect_b,
    multiples_b, MIN_IMAGE_DIMENSION, MAX_IMAGE_DIMENSION.
  destruct ((256 <=? w) && (w <=? 1024) && (256 <=? h) && (h <=? 1024))%Z;
    cbn [negb bind]; [|reflexivity].
  destruct (Qle_bool (1 # 2) (aspect_ratio w h)
            && Qle_bool (aspect_ratio w h) (2 # 1)); cbn [negb bind];
    [|reflexivity].
  rewrite <- negb_andb.
  destruct ((w mod 8 =? 0) && (h mod 8 =? 0))%Z; reflexivity.
Qed.

Lemma validate_size_raise w h e :
  validate_size [w; h] = Raise e -> is_invalid_request e.
Proof.
  rewrite validate_size_cases.
  destruct (in_bounds_b w h); cbn [negb];
    [|intros H; injection H as <-; split; reflexivity].
  destruct (aspect_b w h); cbn [negb];
    [|intros H; injection H as <-; split; reflexivity].
  destruct (multiples_b w h); cbn [negb];
    [discriminate | intros H; injection H as <-; split; reflexivity].
Qed.

Variable U : UnicodeData.

Lemma validate_prompt_raise value e :
  validate_prompt U value = Raise e -> is_invalid_request e.
Proof.
  unfold validate_prompt, validate_string_length.
  destruct value as [|c value];
    [intros H; injection H as <-; split; reflexivity|].
  destruct (negb _); [|discriminate].
  intros H. injection H as <-. split; reflexivity.
Qed.

Lemma find_style_some value :
  forall styles,
    existsb (str_eqb (lower U value)) (map (lower U) styles) = true ->
    exists s, find (fun s => str_eqb (lower U s) (lower U value)) styles
              = Some s.
Proof.
  induction styles as [|s styles IH]; cbn [map existsb find];
    [discriminate|].
  intros H. apply orb_true_iff in H. destruct H as [H | H].
  - apply str_eqb_eq in H. rewrite <- H, str_eqb_refl. now exists s.
  - destruct (str_eqb (lower U s) (lower U value)); [now exists s|].
    now apply IH.
Qed.

Lemma validate_style_raise value e :
  validate_style U value = Raise e -> e = invalid_style_error value.
Proof.
  unfold validate_style.
  destruct (match value with [] => true | _ => false end
            || negb (existsb (str_eqb (lower U value))
                             (map (lower U) SUPPORTED_STYLES))) eqn:E.
  - intros H. now injection H as <-.
  - apply orb_false_iff in E. destruct E as [_ E].
    apply negb_false_iff in E.
    destruct (find_style_some value _ E) as (s & ->). discriminate.
Qed.

Lemma validate_style_inv value s :
  validate_style U value = Ok s ->
  In s SUPPORTED_STYLES /\ lower U value = lower U s.
Proof.
  unfold validate_style. destruct (_ || _); [discriminate|].
  destruct (find _ SUPPORTED_STYLES) as [s'|] eqn:E; [|discriminate].
  intros H. injection H as <-. apply find_some in E.
  destruct E as [Hin Heq]. apply str_eqb_eq in Heq. now split.
Qed.

Lemma supported_style_lower s :
  In s SUPPORTED_STYLES -> lower U s = s /\ s <> [].
Proof.
  intros H. cbn in H.
  repeat (destruct H as [<- | H]; [split; [reflexivity | discriminate]|]).
  destruct H.
Qed.

End IllustrationRequestFacts.

Section IllustrationRequestClaims.
Import IllustrationRequest Spec.

(** C5.  A size whose width or height is not a multiple of 8, or whose
    aspect ratio is outside [0.5, 2.0], is rejected: [validate_size]
    raises an [AIServiceError] of the request validators, and so does the
    constructor, whatever the other arguments are.  The checks run in the
    order bounds, aspect ratio, multiples of 8: a size out of the bounds
    256..1024 gets the bounds error whatever else is wrong with it, and
    the other two errors are raised only for sizes within the bounds. *)
Theorem size_checks_follow_dimension_bounds (w h : Z) :
  (((w mod 8 <> 0 \/ h mod 8 <> 0)%Z \/ ~ aspect_ratio_in_bounds w h) ->
   (exists e, validate_size [w; h] = Raise e /\ is_invalid_request e)
   /\ (forall U prompt style enhance_faces,
          exists e,
            IllustrationRequest.new U prompt style (w, h) enhance_faces
            = Raise e
            /\ is_invalid_request e))
  /\ (~ in_dimension_bounds w h ->
      validate_size [w; h] = Raise (dimension_bounds_error w h))
  /\ (in_dimension_bounds w h -> ~ aspect_ratio_in_bounds w h ->
      validate_size [w; h] = Raise (aspect_ratio_error w h))
  /\ (in_dimension_bounds w h -> aspect_ratio_in_bounds w h ->
      (w mod 8 <> 0 \/ h mod 8 <> 0)%Z ->
      validate_size [w; h] = Raise (multiple_of_8_error w h))
  /\ (in_dimension_bounds w h -> aspect_ratio_in_bounds w h ->
      multiples_of_8 w h ->
      validate_size [w; h] = Ok [w; h]).
Proof.
  pose proof (in_bounds_b_spec w h) as Hb.
  pose proof (aspect_b_spec w h) as Ha.
  pose proof (multiples_b_spec w h) as Hm.
  assert (Hbad : ((w mod 8 <> 0 \/ h mod 8 <> 0)%Z
                  \/ ~ aspect_ratio_in_bounds w h) ->
                 exists e, validate_size [w; h] = Raise e
                           /\ is_invalid_request e).
  { intros Hbad.
    destruct (validate_size [w; h]) as [d|e] eqn:E.
    - exfalso. rewrite validate_size_cases in E.
      destruct (in_bounds_b w h); cbn [negb] in E; [|discriminate].
      destruct (aspect_b w h); cbn [negb] in E; [|discriminate].
      destruct (multiples_b w h); cbn [negb] in E; [|discriminate].
      destruct Hbad as [Hbad | Hbad].
      + destruct (proj1 Hm eq_refl). tauto.
      + apply Hbad. now apply Ha.
    - exists e. split; [reflexivity|]. now apply (validate_size_raise w h). }
  split; [|split; [|split; [|split]]].
  - intros Hx. split; [now apply Hbad|].
    intros U prompt style enhance_faces.
    destruct (Hbad Hx) as (e & He & Hinv).
    unfold IllustrationRequest.new. cbn [fst snd].
    destruct ((MIN_PROMPT_LENGTH <=? len prompt)%Z
              && (len prompt <=? MAX_PROMPT_LENGTH)%Z).
    + destruct (validate_prompt U prompt) as [p|e1] eqn:Hp; cbn [bind].
      * destruct (validate_style U style) as [s|e2] eqn:Hs; cbn [bind].
        -- rewrite He. cbn [bind]. now exists e.
        -- exists e2. split; [reflexivity|].
           rewrite (validate_style_raise U _ _ Hs). split; reflexivity.
      * exists e1. split; [reflexivity|].
        now apply (validate_prompt_raise U prompt).
    + cbn [bind].
      destruct (validate_style U style) as [s|e2] eqn:Hs; cbn [bind].
      * rewrite He. cbn [bind]. now exists e.
      * exists e2. split; [reflexivity|].
        rewrite (validate_style_raise U _ _ Hs). split; reflexivity.
  - intros Hn. rewrite validate_size_cases.
    destruct (in_bounds_b w h); [|reflexivity]. exfalso. tauto.
  - intros Hi Hn. rewrite validate_size_cases.
    rewrite (proj2 Hb Hi). cbn [negb].
    destruct (aspect_b w h); [|reflexivity]. exfalso. tauto.
  - intros Hi Hr Hn. rewrite validate_size_cases.
    rewrite (proj2 Hb Hi), (proj2 Ha Hr). cbn [negb].
    destruct (multiples_b w h); [|reflexivity]. exfalso.
    destruct (proj1 Hm eq_refl). tauto.
  - intros Hi Hr Hmul. rewrite validate_size_cases.
    now rewrite (proj2 Hb Hi), (proj2 Ha Hr), (proj2 Hm Hmul).
Qed.

Lemma size_checks_follow_dimension_bounds_witness :
  validate_size [260; 260]%Z = Raise (multiple_of_8_error 260 260)
  /\ validate_size [1024; 256]%Z = Raise (aspect_ratio_error 1024 256)
  /\ validate_size [100; 100]%Z = Raise (dimension_bounds_error 100 100)
  /\ validate_size [512; 512]%Z = Ok [512; 512]%Z
  /\ exists e,
      IllustrationRequest.new ascii_only
        (u "A friendly dragon reading books") (u "Children's Book")
        (260, 260)%Z true
      = Raise e
      /\ is_invalid_request e.
Proof.
  assert (B : forall w h, in_bounds_b w h = true -> in_dimension_bounds w h)
    by (intros w h; apply in_bounds_b_spec).
  assert (R : forall w h, aspect_b w h = true -> aspect_ratio_in_bounds w h)
    by (intros w h; apply aspect_b_spec).
  split; [|split; [|split; [|split]]].
  - apply (size_checks_follow_dimension_bounds 260 260);
      [now apply B | now apply R | left; discriminate].
  - apply (size_checks_follow_dimension_bounds 1024 256); [now apply B|].
    intros H. apply aspect_b_spec in H. discriminate H.
  - apply (size_checks_follow_dimension_bounds 100 100).
    intros H. apply in_bounds_b_spec in H. discriminate H.
  - apply (size_checks_follow_dimension_bounds 512 512);
      [now apply B | now apply R | split; reflexivity].
  - apply (proj1 (size_checks_follow_dimension_bounds 260 260)).
    left. left. discriminate.
Defined.



End IllustrationRequestClaims.

(* ================================================================== *)
(** * Further properties of the retry wrapper *)
(* ================================================================== *)

Section RetryMore.
Import ErrorHandler Spec More Fixtures.
Context {S A : Type}.
Variable func : Callable (S := S) A.
Variable delay : Q.

Lemma calls_cons_call a evs : calls (EvCall a :: evs) = Datatypes.S (calls evs).
Proof. reflexivity. Qed.

Lemma calls_cons_sleep q evs : calls (EvSleep q :: evs) = calls evs.
Proof. reflexivity. Qed.

Lemma sleeps_cons_call a evs : sleeps (EvCall a :: evs) = sleeps evs.
Proof. reflexivity. Qed.

Lemma sleeps_cons_sleep q evs : sleeps (EvSleep q :: evs) = q :: sleeps evs.
Proof. reflexivity. Qed.

(** The shape of every run of the loop over [n] indices from [a]. *)
Lemma retry_loop_shape n :
  forall a last w,
    let '(_, _, evs) := retry_loop delay func (seq a n) last w in
    (calls evs <= n)%nat
    /\ (List.length (sleeps evs) <= calls evs)%nat
    /\ sleeps evs
       = map (fun i => (delay * 2 ^ Z.of_nat i)%Q)
             (seq a (List.length (sleeps evs))).
Proof.
  induction n as [|n IH]; intros a last w.
  - cbn. repeat split; lia.
  - cbn [seq retry_loop].
    destruct (func w) as [[v|e] w1].
    + cbn. repeat split; lia.
    + destruct (_is_retryable_error e); cbn [negb];
        [|cbn; repeat split; lia].
      unfold backoff_wait.
      destruct (1024 <=? a)%nat; [cbn; repeat split; lia|].
      destruct (time_sleep_raises (delay * 2 ^ Z.of_nat a)%Q);
        [cbn; repeat split; lia|].
      specialize (IH (Datatypes.S a) (Some e)
                     (time_sleep (delay * 2 ^ Z.of_nat a)%Q w1)).
      destruct (retry_loop delay func (seq (Datatypes.S a) n) (Some e) _)
        as [[r w2] evs].
      destruct IH as (H1 & H2 & H3).
      rewrite calls_cons_call, calls_cons_sleep, sleeps_cons_call,
        sleeps_cons_sleep.
      cbn [List.length seq map].
      split; [lia|]. split; [lia|]. f_equal. exact H3.
Qed.

(** What [time.sleep] raises is not a retryable fault. *)
Lemma time_sleep_raises_fatal secs x :
  time_sleep_raises secs = Some x -> _is_retryable_error x = false.
Proof.
  unfold time_sleep_raises.
  destruct (negb (_ && _)); [intros H; now injection H as <-|].
  destruct (negb _); [intros H; now injection H as <- | discriminate].
Qed.

(** Whatever the loop raises is not a retryable fault. *)
Lemma retry_loop_raises_fatal attempts :
  forall last w r w' evs e,
    retry_loop delay func attempts last w = (r, w', evs) ->
    r = Raise e -> _is_retryable_error e = false.
Proof.
  induction attempts as [|a rest IH]; intros last w r w' evs e H Hr.
  - cbn in H. injection H as <- _ _. injection Hr as <-. reflexivity.
  - cbn [retry_loop] in H. destruct (func w) as [[v|e1] w1].
    + injection H as <- _ _. discriminate Hr.
    + destruct (_is_retryable_error e1) eqn:E; cbn [negb] in H;
        [|injection H as <- _ _; injection Hr as <-; exact E].
      unfold backoff_wait in H.
      destruct (1024 <=? a)%nat;
        [injection H as <- _ _; now injection Hr as <-|].
      destruct (time_sleep_raises (delay * 2 ^ Z.of_nat a)%Q) as [x|] eqn:Es.
      * injection H as <- _ _. injection Hr as <-.
        exact (time_sleep_raises_fatal _ _ Es).
      * destruct (retry_loop delay func rest (Some e1) _)
          as [[r2 w2] evs2] eqn:E2.
        injection H as <- _ _. exact (IH _ _ _ _ _ _ E2 Hr).
Qed.

(** An operation that always fails retryably uses up every index whose
    backoff sleep takes place, sleeps after each call, and ends in
    [RETRY_FAILED]. *)
Lemma retry_loop_uses_every_attempt attempts :
  always_fails_retryably func ->
  Forall (backoff_sleep_takes_place delay) attempts ->
  forall last w,
    let '(r, _, evs) := retry_loop delay func attempts last w in
    (exists e, r = Raise e /\ is_retry_failed e)
    /\ calls evs = List.length attempts
    /\ List.length (sleeps evs) = List.length attempts.
Proof.
  intros Hf Hs. induction Hs as [|a rest [Hb Ht] Hs IH]; intros last w.
  - cbn. split; [|split; reflexivity].
    eexists. split; [reflexivity|]. split; reflexivity.
  - destruct (Hf w) as (e & w1 & Hw & He).
    cbn [retry_loop]. rewrite Hw, He. cbn [negb]. rewrite Hb, Ht.
    specialize (IH (Some e) (time_sleep (delay * 2 ^ Z.of_nat a)%Q w1)).
    destruct (retry_loop delay func rest (Some e) _) as [[r w2] evs].
    destruct IH as (H1 & H2 & H3).
    split; [exact H1|].
    rewrite calls_cons_call, calls_cons_sleep, sleeps_cons_call,
      sleeps_cons_sleep.
    cbn [List.length]. split; lia.
Qed.

Lemma Qsum_app l1 l2 : (Qsum (l1 ++ l2) == Qsum l1 + Qsum l2)%Q.
Proof.
  induction l1 as [|q l1 IH]; cbn [app Qsum].
  - ring.
  - rewrite IH. ring.
Qed.

Lemma two_power_succ (n : nat) :
  ((2 # 1) ^ Z.of_nat (Datatypes.S n) == 2 * (2 # 1) ^ Z.of_nat n)%Q.
Proof.
  rewrite Nat2Z.inj_succ. unfold Z.succ.
  rewrite Qpower_plus by discriminate. cbn. ring.
Qed.

(** Within the limits every backoff sleep of the run takes place. *)
Lemma backoff_within_limits_sleeps max_attempts :
  backoff_within_limits delay max_attempts ->
  Forall (backoff_sleep_takes_place delay) (range max_attempts).
Proof.
  intros (Hd & Hm & Hw). apply Forall_forall. intros a Ha.
  unfold range in Ha. apply in_seq in Ha.
  assert (Hp : (0 <= 2 ^ Z.of_nat a)%Q) by (apply Qpower_0_le; discriminate).
  assert (Hle : (delay * 2 ^ Z.of_nat a * inject_Z (10 ^ 9)
                 <= inject_Z SLEEP_MAX_NS)%Q).
  { eapply Qle_trans; [|exact Hw].
    apply Qmult_le_compat_r; [|discriminate].
    rewrite !(Qmult_comm delay). apply Qmult_le_compat_r; [|exact Hd].
    apply Qpower_le_compat_l; [lia | discriminate]. }
  assert (H0 : (0 <= delay * 2 ^ Z.of_nat a)%Q)
    by (apply Qmult_le_0_compat; assumption).
  split.
  - unfold backoff_wait.
    destruct (Nat.leb_spec 1024 a) as [H|H]; [lia | reflexivity].
  - unfold time_sleep_raises. cbv zeta.
    apply Qle_bool_iff in Hle. rewrite Hle.
    assert (Hlo : Qle_bool (inject_Z (- SLEEP_MAX_NS))
                           (delay * 2 ^ Z.of_nat a * inject_Z (10 ^ 9))
                  = true).
    { apply Qle_bool_iff. eapply Qle_trans with (y := 0%Q); [discriminate|].
      apply Qmult_le_0_compat; [exact H0 | discriminate]. }
    rewrite Hlo. cbn [andb negb].
    apply Qle_bool_iff in H0. now rewrite H0.
Qed.

(** The sleeps of [k] failed attempts from index [a] add up to
    [delay * 2^a * (2^k - 1)]. *)
Lemma backoff_trace_total k :
  forall a,
    (Qsum (sleeps (backoff_trace delay k a))
     == delay * 2 ^ Z.of_nat a * (2 ^ Z.of_nat k - 1))%Q.
Proof.
  induction k as [|k IH]; intros a.
  - cbn. ring.
  - cbn [backoff_trace]. rewrite sleeps_cons_call, sleeps_cons_sleep.
    cbn [Qsum]. rewrite IH, !two_power_succ. ring.
Qed.

(** An operation that always fails retryably is called at every index
    up to the first one whose backoff cannot be slept, and the exception
    of the product or of [time.sleep] ends the run there. *)
Lemma retry_loop_stops_where_backoff_fails before :
  always_fails_retryably func ->
  Forall (backoff_sleep_takes_place delay) before ->
  forall a rest x,
    backoff_wait delay a = Raise x
    \/ (backoff_wait delay a = Ok (delay * 2 ^ Z.of_nat a)%Q
        /\ time_sleep_raises (delay * 2 ^ Z.of_nat a)%Q = Some x) ->
    forall last w,
      let '(r, _, evs) :=
        retry_loop delay func (before ++ a :: rest) last w in
      r = Raise x
      /\ calls evs = Datatypes.S (List.length before)
      /\ List.length (sleeps evs) = List.length before.
Proof.
  intros Hf Hs a rest x Hx.
  induction Hs as [|b before [Hb Ht] Hs IH]; intros last w;
    destruct (Hf w) as (e & w1 & Hw & He);
    cbn [app retry_loop]; rewrite Hw, He; cbn [negb].
  - destruct Hx as [Hx | [Hx1 Hx2]].
    + rewrite Hx. repeat split; reflexivity.
    + rewrite Hx1, Hx2. repeat split; reflexivity.
  - rewrite Hb, Ht.
    specialize (IH (Some e) (time_sleep (delay * 2 ^ Z.of_nat b)%Q w1)).
    destruct (retry_loop delay func (before ++ a :: rest) (Some e) _)
      as [[r w2] evs].
    destruct IH as (H1 & H2 & H3).
    rewrite calls_cons_call, calls_cons_sleep, sleeps_cons_call,
      sleeps_cons_sleep.
    cbn [List.length]. split; [exact H1|]. split; lia.
Qed.

(** [k] failed attempts and the call after them are [k + 1] calls and
    [k] sleeps. *)
Lemma backoff_trace_calls k :
  forall a b, calls (backoff_trace delay k a ++ [EvCall b]) = Datatypes.S k.
Proof.
  induction k as [|k IH]; intros a b; [reflexivity|].
  cbn [backoff_trace app]. rewrite calls_cons_call, calls_cons_sleep.
  now rewrite IH.
Qed.

Lemma backoff_trace_sleeps k :
  forall a, List.length (sleeps (backoff_trace delay k a)) = k.
Proof.
  induction k as [|k IH]; intros a; [reflexivity|].
  cbn [backoff_trace]. rewrite sleeps_cons_call, sleeps_cons_sleep.
  cbn [List.length]. now rewrite IH.
Qed.

End RetryMore.

Section RetryMoreProperties.
Import ErrorHandler Spec More Fixtures.

(** X1.  Whatever the wrapped function does, the wrapper calls it at most
    [max_attempts] times, never sleeps more often than it calls, and its
    sleeps are [delay], [2 * delay], [4 * delay], ... in that order. *)
Theorem retry_attempts_bounded_backoff_exponential
        {S A : Type} (func : Callable (S := S) A) (delay : Q)
        (max_attempts : Z) (w : World S) :
  let '(_, _, evs) := retry max_attempts delay func w in
  (calls evs <= Z.to_nat max_attempts)%nat
  /\ (List.length (sleeps evs) <= calls evs)%nat
  /\ sleeps evs
     = map (fun i => (delay * 2 ^ Z.of_nat i)%Q)
           (seq 0 (List.length (sleeps evs))).
Proof. apply retry_loop_shape. Qed.

(** X2.  With [max_attempts] zero or negative the wrapped function is never
    called: the wrapper raises [RETRY_FAILED] at once, and since no fault
    was ever caught the error reports the text [None] as its original
    error. *)
Theorem retry_without_attempts_never_calls
        {S A : Type} (func : Callable (S := S) A) (delay : Q)
        (max_attempts : Z) (w : World S) :
  (max_attempts <= 0)%Z ->
  retry max_attempts delay func w
  = (Raise (AIServiceError (ERROR_MESSAGES_at "RETRY_FAILED")
              [("original_error"%string, VStr (u "None"))]
              (fst (uuid4 w))),
     snd (uuid4 w), []).
Proof.
  intros H. unfold retry, range.
  replace (Z.to_nat max_attempts) with 0%nat by lia. reflexivity.
Qed.

Lemma retry_without_attempts_never_calls_witness :
  retry 0 RETRY_DELAY (fails_first 0 rate_limited 42) world0
  = (Raise (AIServiceError (u "Maximum retry attempts exceeded.")
              [("original_error"%string, VStr (u "None"))]
              (u "uuid-0")),
     snd (uuid4 world0), []).
Proof.
  apply (retry_without_attempts_never_calls
           (fails_first 0 rate_limited 42) RETRY_DELAY 0 world0).
  lia.
Defined.

(** X3.  When the function succeeds at attempt [k] after [k] retryable
    failures, each followed by its backoff sleep, the wrapper returns the
    result after exactly [k + 1] calls; every sleep lies before the
    successful call, which is the last event, and the sleeps add up to
    [delay * (2^k - 1)]: [delay * 3] before a third attempt. *)
Theorem retry_backoff_total_before_success
        {S A : Type} (func : Callable (S := S) A) (delay : Q)
        (max_attempts : Z) (w wk w' : World S) (k : nat) (v : A) :
  (Z.of_nat k < max_attempts)%Z ->
  after_failures func delay k 0 w wk ->
  func wk = (Ok v, w') ->
  let '(r, _, evs) := retry max_attempts delay func w in
  r = Ok v
  /\ calls evs = Datatypes.S k
  /\ List.length (sleeps evs) = k
  /\ (exists before,
        evs = before ++ [EvCall k] /\ sleeps before = sleeps evs)
  /\ (Qsum (sleeps evs) == delay * (2 ^ Z.of_nat k - 1))%Q.
Proof.
  intros Hk Ha Hok. unfold retry. rewrite (range_split max_attempts k Hk).
  rewrite (retry_loop_succeeds_after func delay k 0%nat _ None w wk v w' Ha Hok).
  change (0 + k)%nat with k.
  assert (Hs : sleeps (backoff_trace delay k 0 ++ [EvCall k])
               = sleeps (backoff_trace delay k 0)).
  { unfold sleeps. rewrite flat_map_app. cbn [flat_map app].
    now rewrite app_nil_r. }
  split; [reflexivity|]. split; [|split; [|split]].
  - apply backoff_trace_calls.
  - rewrite Hs. apply backoff_trace_sleeps.
  - exists (backoff_trace delay k 0). split; [reflexivity|]. now rewrite Hs.
  - rewrite Hs, backoff_trace_total. cbn [Z.of_nat]. ring.
Qed.

Lemma retry_backoff_total_before_success_witness :
  let '(r, _, evs) :=
    retry 3 RETRY_DELAY (fails_first 2 rate_limited 42) world0 in
  r = Ok 42%Z
  /\ calls evs = 3%nat
  /\ List.length (sleeps evs) = 2%nat
  /\ (exists before,
        evs = before ++ [EvCall 2] /\ sleeps before = sleeps evs)
  /\ (Qsum (sleeps evs) == RETRY_DELAY * (2 ^ 2 - 1))%Q.
Proof.
  apply (retry_backoff_total_before_success
           (fails_first 2 rate_limited 42) RETRY_DELAY 3 world0
           (time_sleep (RETRY_DELAY * 2 ^ 1)%Q
              (count_call
                 (time_sleep (RETRY_DELAY * 2 ^ 0)%Q (count_call world0))))
           (count_call
              (time_sleep (RETRY_DELAY * 2 ^ 1)%Q
                 (count_call
                    (time_sleep (RETRY_DELAY * 2 ^ 0)%Q (count_call world0)))))
           2%nat 42%Z).
  - lia.
  - simpl. eexists _, _. split; [reflexivity|]. split; [reflexivity|].
    split; [split; reflexivity|].
    eexists _, _. split; [reflexivity|]. split; [reflexivity|].
    split; [split; reflexivity|]. reflexivity.
  - reflexivity.
Defined.

(** X4.  Around a function that fails retryably on every call, with a
    delay that is not negative, at most 1024 attempts and a longest wait
    that [time.sleep] accepts, the wrapper calls the function exactly
    [max_attempts] times, sleeps after every one of the calls, the last
    included, and raises [RETRY_FAILED]. *)
Theorem retry_exhaustion_uses_every_attempt
        {S A : Type} (func : Callable (S := S) A) (delay : Q)
        (max_attempts : Z) (w : World S) :
  always_fails_retryably func ->
  backoff_within_limits delay max_attempts ->
  let '(r, _, evs) := retry max_attempts delay func w in
  (exists e, r = Raise e /\ is_retry_failed e)
  /\ calls evs = Z.to_nat max_attempts
  /\ List.length (sleeps evs) = Z.to_nat max_attempts.
Proof.
  intros Hf Hl. unfold retry.
  pose proof (retry_loop_uses_every_attempt func delay (range max_attempts)
                Hf (backoff_within_limits_sleeps delay max_attempts Hl)
                None w) as H.
  unfold range in *. rewrite length_seq in H. exact H.
Qed.

Lemma always_raises_rate_limited_retryably :
  always_fails_retryably (always_raises rate_limited).
Proof. intros w. eexists _, _. split; reflexivity. Qed.

Lemma default_delay_within_limits (n : Z) :
  (n <= 30)%Z -> backoff_within_limits RETRY_DELAY n.
Proof.
  intros Hn. split; [discriminate|]. split; [lia|].
  eapply Qle_trans with (y := (RETRY_DELAY * 2 ^ 29 * inject_Z (10 ^ 9))%Q);
    [|vm_compute; discriminate].
  apply Qmult_le_compat_r; [|discriminate].
  rewrite !(Qmult_comm RETRY_DELAY). apply Qmult_le_compat_r; [|discriminate].
  apply Qpower_le_compat_l; [lia | discriminate].
Qed.

Lemma retry_exhaustion_uses_every_attempt_witness :
  let '(r, _, evs) :=
    retry 5 RETRY_DELAY (always_raises rate_limited) world0 in
  (exists e, r = Raise e /\ is_retry_failed e)
  /\ calls evs = 5%nat
  /\ List.length (sleeps evs) = 5%nat.
Proof.
  apply (retry_exhaustion_uses_every_attempt
           (always_raises rate_limited) RETRY_DELAY 5 world0).
  - exact always_raises_rate_limited_retryably.
  - apply default_delay_within_limits. lia.
Defined.

(** X5.  [RETRY_FAILED] is itself not retryable, so wrappers do not
    multiply: an outer wrapper around a wrapped function that fails
    retryably on every call, the inner backoff staying within what
    [time.sleep] accepts, makes one call of the inner wrapper, sleeps
    nowhere itself, and passes on the inner [RETRY_FAILED]. *)
Theorem nested_retry_does_not_multiply_attempts
        {S A : Type} (func : Callable (S := S) A) (inner_delay outer_delay : Q)
        (inner_attempts outer_attempts : Z) (w : World S) :
  always_fails_retryably func ->
  backoff_within_limits inner_delay inner_attempts ->
  (1 <= outer_attempts)%Z ->
  let inner := as_callable (retry inner_attempts inner_delay func) in
  let '(r, w', evs) := retry outer_attempts outer_delay inner w in
  (r, w') = inner w
  /\ evs = [EvCall 0]
  /\ exists e, r = Raise e /\ is_retry_failed e.
Proof.
  intros Hf Hl Ho inner.
  pose proof (retry_loop_uses_every_attempt func inner_delay
                (range inner_attempts) Hf
                (backoff_within_limits_sleeps inner_delay inner_attempts Hl)
                None w) as Hin.
  fold (retry inner_attempts inner_delay func w) in Hin.
  destruct (retry inner_attempts inner_delay func w) as [[ri wi] evi] eqn:Ei.
  destruct Hin as ((e & -> & He) & _).
  assert (Hi : inner w = (Raise e, wi)).
  { unfold inner, as_callable. now rewrite Ei. }
  assert (Hr : _is_retryable_error e = false)
    by exact (retry_loop_raises_fatal func inner_delay
                (range inner_attempts) None w _ _ _ _ Ei eq_refl).
  rewrite (retry_reraises_at_once inner outer_delay outer_attempts w e wi
             Ho Hi Hr).
  rewrite Hi. split; [reflexivity|]. split; [reflexivity|].
  exists e. split; [reflexivity | assumption].
Qed.

Lemma nested_retry_does_not_multiply_attempts_witness :
  let inner := as_callable (retry 3 RETRY_DELAY (always_raises rate_limited)) in
  let '(r, w', evs) := retry 3 RETRY_DELAY inner world0 in
  (r, w') = inner world0
  /\ evs = [EvCall 0]
  /\ exists e, r = Raise e /\ is_retry_failed e.
Proof.
  apply (nested_retry_does_not_multiply_attempts
           (always_raises rate_limited) RETRY_DELAY RETRY_DELAY 3 3 world0).
  - exact always_raises_rate_limited_retryably.
  - apply default_delay_within_limits. lia.
  - lia.
Defined.

(** X29.  With a negative delay the wrapper never retries: after the
    first retryable failure [time.sleep] is called with a negative
    duration and raises [ValueError] (or [OverflowError] when the
    duration is beyond what it can hold), inside the [except] clause, so
    the wrapper ends in that exception after one call and no sleep, and
    [RETRY_FAILED] is never raised. *)
Theorem retry_with_negative_delay_never_retries
        {S A : Type} (func : Callable (S := S) A) (delay : Q)
        (max_attempts : Z) (w w1 : World S) (e : PyExc) :
  (1 <= max_attempts)%Z ->
  (delay < 0)%Q ->
  func w = (Raise e, w1) ->
  _is_retryable_error e = true ->
  let '(r, w', evs) := retry max_attempts delay func w in
  (r = Raise negative_sleep \/ r = Raise timestamp_too_large)
  /\ (inject_Z (- SLEEP_MAX_NS) <= delay * inject_Z (10 ^ 9)
      -> r = Raise negative_sleep)%Q
  /\ w' = w1 /\ evs = [EvCall 0].
Proof.
  intros Hm Hd Hw He. unfold retry. rewrite (range_cons max_attempts Hm).
  cbn [retry_loop]. rewrite Hw, He. cbn [negb backoff_wait Nat.leb].
  change (2 ^ Z.of_nat 0)%Q with 1%Q.
  unfold time_sleep_raises. cbv zeta.
  assert (Hn : Qle_bool 0 (delay * 1) = false).
  { destruct (Qle_bool 0 (delay * 1)) eqn:E; [|reflexivity].
    apply Qle_bool_iff in E. rewrite Qmult_1_r in E.
    exfalso. exact (Qlt_not_le _ _ Hd E). }
  destruct (Qle_bool (inject_Z (- SLEEP_MAX_NS))
                     (delay * 1 * inject_Z (10 ^ 9))) eqn:Elo;
    cbn [andb negb].
  - assert (Hhi : Qle_bool (delay * 1 * inject_Z (10 ^ 9))
                           (inject_Z SLEEP_MAX_NS) = true).
    { apply Qle_bool_iff. apply Qle_trans with (y := 0%Q); [|discriminate].
      rewrite Qmult_1_r.
      setoid_replace 0%Q with (0 * inject_Z (10 ^ 9))%Q by ring.
      apply Qmult_le_compat_r; [now apply Qlt_le_weak | discriminate]. }
    rewrite Hhi, Hn. cbn [negb].
    split; [now left|]. split; [reflexivity|]. split; reflexivity.
  - split; [now right|]. split; [|split; reflexivity].
    intros Hlo. exfalso.
    assert (E : Qle_bool (inject_Z (- SLEEP_MAX_NS))
                         (delay * 1 * inject_Z (10 ^ 9)) = true).
    { apply Qle_bool_iff. now rewrite Qmult_1_r. }
    rewrite E in Elo. discriminate Elo.
Qed.

Lemma retry_with_negative_delay_never_retries_witness :
  retry 3 (- (3 # 2)) (always_raises rate_limited) world0
  = (Raise negative_sleep, count_call world0, [EvCall 0]).
Proof.
  pose proof (retry_with_negative_delay_never_retries
                (always_raises rate_limited) (- (3 # 2))%Q 3 world0
                (count_call world0) rate_limited
                ltac:(lia) ltac:(reflexivity) eq_refl eq_refl) as H.
  destruct (retry 3 (- (3 # 2)) (always_raises rate_limited) world0)
    as [[r w'] evs].
  destruct H as (_ & Hr & -> & ->).
  rewrite Hr; [reflexivity | discriminate].
Defined.

(** X30.  The backoff is computed as [delay * (2 ** attempt)] with a float
    delay, and the power is converted to a float: at the attempt of index
    1024 that conversion raises [OverflowError].  So with a delay of zero
    and more than 1024 attempts, a function that fails retryably on every
    call is called 1025 times, 1024 sleeps of no length are made, and the
    wrapper ends in [OverflowError], not in [RETRY_FAILED]. *)
Theorem retry_overflows_at_attempt_1024
        {S A : Type} (func : Callable (S := S) A) (max_attempts : Z)
        (w : World S) :
  always_fails_retryably func ->
  (1024 < max_attempts)%Z ->
  let '(r, _, evs) := retry max_attempts 0 func w in
  r = Raise int_too_large
  /\ calls evs = 1025%nat
  /\ List.length (sleeps evs) = 1024%nat.
Proof.
  intros Hf Hm. unfold retry.
  rewrite (range_split max_attempts 1023 ltac:(lia)).
  replace (Z.to_nat max_attempts - 1024)%nat
    with (Datatypes.S (Z.to_nat max_attempts - 1025)) by lia.
  rewrite <- cons_seq.
  assert (Hl : backoff_within_limits 0 1024).
  { split; [discriminate|]. split; [lia|].
    setoid_replace (0 * 2 ^ (1024 - 1) * inject_Z (10 ^ 9))%Q with 0%Q
      by ring.
    discriminate. }
  pose proof (retry_loop_stops_where_backoff_fails func 0%Q
                (seq 0 1024) Hf (backoff_within_limits_sleeps 0 1024 Hl)
                1024%nat (seq 1025 (Z.to_nat max_attempts - 1025))
                int_too_large (or_introl eq_refl) None w) as H.
  rewrite length_seq in H. exact H.
Qed.

Lemma retry_overflows_at_attempt_1024_witness :
  let '(r, _, evs) := retry 1030 0 (always_raises rate_limited) world0 in
  r = Raise int_too_large
  /\ calls evs = 1025%nat
  /\ List.length (sleeps evs) = 1024%nat.
Proof.
  apply (retry_overflows_at_attempt_1024
           (always_raises rate_limited) 1030 world0).
  - exact always_raises_rate_limited_retryably.
  - lia.
Defined.

(** X6.  No retryable fault ever leaves the wrapper: whatever it raises,
    be it a fault of the wrapped function or its own [RETRY_FAILED], is
    not retryable. *)
Theorem retry_never_raises_retryable_fault
        {S A : Type} (func : Callable (S := S) A) (delay : Q)
        (max_attempts : Z) (w w' : World S) (evs : list Event) (e : PyExc) :
  retry max_attempts delay func w = (Raise e, w', evs) ->
  _is_retryable_error e = false.
Proof.
  intros H.
  exact (retry_loop_raises_fatal func delay (range max_attempts) None w
           _ _ _ _ H eq_refl).
Qed.

Lemma retry_never_raises_retryable_fault_witness :
  _is_retryable_error
    (retry_failed rate_limited (u "uuid-0")) = false.
Proof.
  apply (retry_never_raises_retryable_fault
           (always_raises rate_limited) RETRY_DELAY 3 world0
           (snd (fst (retry 3 RETRY_DELAY (always_raises rate_limited) world0)))
           (snd (retry 3 RETRY_DELAY (always_raises rate_limited) world0))).
  reflexivity.
Defined.

End RetryMoreProperties.

(* ================================================================== *)
(** * Further properties of the provider handlers *)
(* ================================================================== *)

Section HandlerProperties.
Import ErrorHandler Spec More Fixtures.

Lemma ExcClass_eqb_refl c : ExcClass_eqb c c = true.
Proof. destruct c; try reflexivity. apply String.eqb_refl. Qed.

Lemma isinstance_of_base e c classes :
  In c (exc_bases e) -> In c classes -> isinstance e classes = true.
Proof.
  intros Hb Hc. unfold isinstance. apply existsb_exists. exists c.
  split; [assumption|]. apply existsb_exists. exists c.
  split; [now right | apply ExcClass_eqb_refl].
Qed.

(** X7.  The two handlers answer for every error and context: the body
    runs once, nothing is slept and nothing is raised, although both are
    decorated with the retry wrapper.  The status is one of 400, 422, 429,
    500, 504 (OpenAI) or 400, 429, 500 (Stable Diffusion), and the message
    is one of the fixed messages. *)
Theorem handlers_answer_once_with_listed_status
        {S : Type} (e : PyExc) (context : ErrorContext) (w : World S) :
  (let '(r, w', evs) := handle_openai_error e context w in
   evs = [EvCall 0] /\ clock w' = clock w /\
   exists http, r = Ok http /\ In (status_code http) openai_statuses /\
     exists m, In m (map snd ERROR_MESSAGES)
               /\ detail_message (detail http) = Some (VStr m))
  /\
  (let '(r, w', evs) := handle_stable_diffusion_error e context w in
   evs = [EvCall 0] /\ clock w' = clock w /\
   exists http, r = Ok http /\ In (status_code http) stable_diffusion_statuses /\
     exists m, In m (map snd ERROR_MESSAGES)
               /\ detail_message (detail http) = Some (VStr m)).
Proof.
  split.
  - unfold handle_openai_error, retry, handle_openai_error_body.
    change (range MAX_RETRIES) with [0; 1; 2]%nat.
    cbn [retry_loop uuid4].
    destruct (exc_type e); cbn [mapping_get openai_error_mapping ExcClass_eqb];
      (split; [reflexivity|]; split; [reflexivity|];
       eexists; split; [reflexivity|]; split; [cbn; tauto|];
       eexists; split; [|reflexivity]; cbn; tauto).
  - unfold handle_stable_diffusion_error, retry,
      handle_stable_diffusion_error_body.
    change (range MAX_RETRIES) with [0; 1; 2]%nat.
    cbn [retry_loop uuid4].
    destruct (exc_type e);
      cbn [mapping_get stable_diffusion_error_mapping ExcClass_eqb];
      (split; [reflexivity|]; split; [reflexivity|];
       eexists; split; [reflexivity|]; split; [cbn; tauto|];
       eexists; split; [|reflexivity]; cbn; tauto).
Qed.

(** X8.  The handlers look the error up by its exact class while
    [_is_retryable_error] follows inheritance: a fault whose own class is
    in neither mapping but which inherits from a retryable class is
    retried by the wrapper and yet reported by both handlers as a plain
    500 [API_ERROR]. *)
Theorem inherited_fault_retryable_but_reported_as_500
        {S : Type} (e : PyExc) (c : ExcClass) (context : ErrorContext)
        (w : World S) :
  not_a_key openai_error_mapping (exc_type e) ->
  not_a_key stable_diffusion_error_mapping (exc_type e) ->
  In c (exc_bases e) -> In c retryable_errors ->
  _is_retryable_error e = true
  /\ (let '(r, _, _) := handle_openai_error e context w in
      exists http, r = Ok http /\ status_code http = 500%Z /\
        detail_message (detail http)
        = Some (VStr (ERROR_MESSAGES_at "API_ERROR")))
  /\ (let '(r, _, _) := handle_stable_diffusion_error e context w in
      exists http, r = Ok http /\ status_code http = 500%Z /\
        detail_message (detail http)
        = Some (VStr (ERROR_MESSAGES_at "API_ERROR"))).
Proof.
  intros Ho Hs Hb Hc. split; [|split].
  - now apply (isinstance_of_base e c).
  - unfold handle_openai_error, retry, handle_openai_error_body.
    change (range MAX_RETRIES) with [0; 1; 2]%nat.
    cbn [retry_loop uuid4].
    rewrite (mapping_get_absent _ _ _ Ho).
    eexists. split; [reflexivity|]. split; reflexivity.
  - unfold handle_stable_diffusion_error, retry,
      handle_stable_diffusion_error_body.
    change (range MAX_RETRIES) with [0; 1; 2]%nat.
    cbn [retry_loop uuid4].
    rewrite (mapping_get_absent _ _ _ Hs).
    eexists. split; [reflexivity|]. split; reflexivity.
Qed.

Lemma inherited_fault_retryable_but_reported_as_500_witness :
  _is_retryable_error throttled = true
  /\ (let '(r, _, _) := handle_openai_error throttled no_context world0 in
      exists http, r = Ok http /\ status_code http = 500%Z /\
        detail_message (detail http)
        = Some (VStr (u "External API error occurred."))).
Proof.
  destruct (inherited_fault_retryable_but_reported_as_500
              throttled openai_RateLimitError no_context world0)
    as (H1 & H2 & _).
  - intros k Hk. cbn in Hk.
    repeat (destruct Hk as [<- | Hk]; [reflexivity|]). destruct Hk.
  - intros k Hk. cbn in Hk.
    repeat (destruct Hk as [<- | Hk]; [reflexivity|]). destruct Hk.
  - now left.
  - now left.
  - split; [exact H1 | exact H2].
Defined.

End HandlerProperties.

(* ================================================================== *)
(** * Further properties of strings *)
(* ================================================================== *)

Section SplitJoinFacts.
Import More.
Variable U : UnicodeData.

Lemma forallb_rev {X : Type} (f : X -> bool) (l : list X) :
  forallb f l = true -> forallb f (rev l) = true.
Proof.
  rewrite !forallb_forall. intros H x Hx. apply H. now apply in_rev.
Qed.

Lemma rev_not_nil {X : Type} (l : list X) : l <> [] -> rev l <> [].
Proof.
  intros H E. apply H. rewrite <- (rev_involutive l), E. reflexivity.
Qed.

Lemma split_from_words s :
  forall word,
    forallb (fun c => negb (isspace U c)) word = true ->
    Forall (is_word U) (split_from U word s).
Proof.
  induction s as [|c s IH]; intros word Hw; cbn [split_from].
  - destruct word as [|y word]; [constructor|].
    constructor; [|constructor]. split.
    + apply rev_not_nil. discriminate.
    + now apply forallb_rev.
  - destruct (isspace U c) eqn:E.
    + destruct word as [|y word]; [now apply IH|].
      constructor; [|now apply IH]. split.
      * apply rev_not_nil. discriminate.
      * now apply forallb_rev.
    + apply IH. cbn [forallb]. now rewrite E, Hw.
Qed.

Lemma split_from_word_prefix w :
  forallb (fun c => negb (isspace U c)) w = true ->
  forall acc t, split_from U acc (w ++ t) = split_from U (rev w ++ acc) t.
Proof.
  induction w as [|c w IH]; intros Hw acc t; [reflexivity|].
  cbn [forallb] in Hw. apply andb_true_iff in Hw. destruct Hw as [Hc Hw].
  apply negb_true_iff in Hc. cbn [app split_from]. rewrite Hc, (IH Hw).
  cbn [rev]. now rewrite <- app_assoc.
Qed.

Lemma split_join_words words :
  Forall (is_word U) words -> split U (join (u " ") words) = words.
Proof.
  unfold split. induction 1 as [|w words [Hne Hw] Hall IH]; [reflexivity|].
  cbn [join]. destruct words as [|w2 rest].
  - rewrite <- (app_nil_r w) at 1.
    rewrite (split_from_word_prefix w Hw), app_nil_r. cbn [split_from].
    destruct (rev w) eqn:E; [now apply rev_not_nil in E|].
    now rewrite <- E, rev_involutive.
  - rewrite (split_from_word_prefix w Hw), app_nil_r.
    change (u " " ++ join (u " ") (w2 :: rest))
      with (32%N :: join (u " ") (w2 :: rest)).
    cbn [split_from]. change (isspace U 32%N) with true. cbv iota.
    destruct (rev w) eqn:E; [now apply rev_not_nil in E|].
    rewrite <- E, rev_involutive. f_equal. exact IH.
Qed.

Lemma join_words_first words c t :
  Forall (is_word U) words -> join (u " ") words = c :: t ->
  isspace U c = false.
Proof.
  intros Hall E. destruct Hall as [|w words [Hne Hw] Hall]; [discriminate|].
  destruct w as [|c' w]; [congruence|].
  cbn [forallb] in Hw. apply andb_true_iff in Hw. destruct Hw as [Hc _].
  apply negb_true_iff in Hc.
  destruct words; cbn [join app] in E; injection E as -> _; exact Hc.
Qed.

Lemma join_words_not_nil words :
  Forall (is_word U) words -> words <> [] -> join (u " ") words <> [].
Proof.
  intros Hall Hne. destruct Hall as [|w words [Hw _] _]; [congruence|].
  destruct w as [|c w]; [congruence|]. destruct words; discriminate.
Qed.

Lemma join_words_last words :
  Forall (is_word U) words ->
  forall c t, rev (join (u " ") words) = c :: t -> isspace U c = false.
Proof.
  induction 1 as [|w words [Hne Hw] Hall IH]; intros c t; [discriminate|].
  cbn [join]. destruct words as [|w2 rest].
  - intros E. apply forallb_rev in Hw. rewrite E in Hw.
    cbn [forallb] in Hw. apply andb_true_iff in Hw. destruct Hw as [Hc _].
    now apply negb_true_iff in Hc.
  - rewrite !rev_app_distr.
    destruct (rev (join (u " ") (w2 :: rest))) as [|c' t'] eqn:E.
    + exfalso. apply (join_words_not_nil (w2 :: rest) Hall); [discriminate|].
      rewrite <- (rev_involutive (join _ _)), E. reflexivity.
    + cbn [app]. intros E'. injection E' as Hc _. subst c.
      apply (IH c' t'). reflexivity.
Qed.

Lemma lstrip_fixed s :
  (forall c t, s = c :: t -> isspace U c = false) -> lstrip U s = s.
Proof.
  destruct s as [|c t]; [reflexivity|]. intros H. cbn [lstrip].
  now rewrite (H c t eq_refl).
Qed.

Lemma strip_join_words words :
  Forall (is_word U) words ->
  strip U (join (u " ") words) = join (u " ") words.
Proof.
  intros Hall. unfold strip.
  rewrite (lstrip_fixed (join (u " ") words)).
  - rewrite lstrip_fixed; [apply rev_involutive|].
    intros c t E. exact (join_words_last words Hall c t E).
  - intros c t E. exact (join_words_first words c t Hall E).
Qed.

Lemma filter_all {X : Type} (f : X -> bool) (l : list X) :
  forallb f l = true -> filter f l = l.
Proof.
  induction l as [|x l IH]; [reflexivity|]. cbn [forallb filter].
  intros H. apply andb_true_iff in H. destruct H as [-> H].
  now rewrite IH.
Qed.

Lemma sanitize_input_words s :
  exists words,
    StoryRequest.sanitize_input U s = join (u " ") words
    /\ Forall (is_word U) words
    /\ forall w c, In w words -> In c w -> category_is_C U c = false.
Proof.
  unfold StoryRequest.sanitize_input.
  exists (split U (filter (fun c => negb (category_is_C U c)) (nfkc U s))).
  split; [reflexivity|]. split.
  - now apply split_from_words.
  - intros w c Hw Hc.
    destruct (split_from_chars U _ _ _ _ Hw Hc) as [[] | H].
    apply filter_In in H. destruct H as [_ H]. now apply negb_true_iff in H.
Qed.

End SplitJoinFacts.

Section StringProperties.
Import More StoryRequest.

(** X9.  Splitting undoes joining: for words that are not empty and hold
    no whitespace, [" ".join(words).split()] is [words] again. *)
Theorem split_join_round_trip (U : UnicodeData) (words : list str) :
  Forall (is_word U) words ->
  split U (join (u " ") words) = words.
Proof. apply split_join_words. Qed.

Lemma split_join_round_trip_witness :
  split ascii_only (join (u " ") (map u ["space"; "art"; "dinosaurs"]%string))
  = map u ["space"; "art"; "dinosaurs"]%string.
Proof.
  apply (split_join_round_trip ascii_only).
  repeat constructor; discriminate.
Defined.

Lemma sanitize_input_normal (U : UnicodeData) (s : str) :
  let r := sanitize_input U s in
  (forall c, In c r ->
             c = 32%N \/ (category_is_C U c = false /\ isspace U c = false))
  /\ join (u " ") (split U r) = r
  /\ strip U r = r.
Proof.
  intros r. destruct (sanitize_input_words U s) as (words & Hr & Hall & Hc).
  fold r in Hr. rewrite Hr. split; [|split].
  - intros c Hin. apply join_chars in Hin.
    destruct Hin as [[<- | []] | (w & Hw & Hcw)]; [now left|].
    right. split; [now apply (Hc w)|].
    rewrite Forall_forall in Hall. destruct (Hall w Hw) as [_ Hs].
    rewrite forallb_forall in Hs. now apply negb_true_iff, Hs.
  - now rewrite split_join_words.
  - now apply strip_join_words.
Qed.

(** X10.  The result of [sanitize_input] is in normal form: it holds no
    control character and no whitespace other than U+0020; it has no
    leading, trailing or doubled space, so splitting and joining it again,
    or stripping it, changes nothing. *)
Theorem sanitize_input_normal_form (U : UnicodeData) (s : str) :
  let r := sanitize_input U s in
  (forall c, In c r ->
             c = 32%N \/ (category_is_C U c = false /\ isspace U c = false))
  /\ join (u " ") (split U r) = r
  /\ strip U r = r.
Proof. apply sanitize_input_normal. Qed.

Lemma sanitize_input_normal_form_witness :
  In 77%N (sanitize_input ascii_only (u "  Mia   Lee "))
  /\ (77%N = 32%N
      \/ (category_is_C ascii_only 77%N = false
          /\ isspace ascii_only 77%N = false)).
Proof.
  split; [vm_compute; auto|].
  apply (proj1 (sanitize_input_normal_form ascii_only (u "  Mia   Lee ")) 77%N).
  vm_compute; auto.
Defined.

(** X11.  On ASCII text [sanitize_input] is idempotent. *)
Theorem sanitize_input_idempotent_on_ascii (U : UnicodeData) (s : str) :
  forallb is_ascii s = true ->
  sanitize_input U (sanitize_input U s) = sanitize_input U s.
Proof.
  intros Ha.
  destruct (sanitize_input_normal U s) as (Hc & Hj & _).
  set (r := sanitize_input U s) in *.
  assert (Hra : forallb is_ascii r = true).
  { apply forallb_forall. intros c Hin. unfold r, sanitize_input in Hin.
    apply join_chars in Hin. destruct Hin as [[<- | []] | (w & Hw & Hcw)];
      [reflexivity|].
    destruct (split_from_chars U _ _ _ _ Hw Hcw) as [[] | H].
    apply filter_In in H. destruct H as [H _].
    unfold nfkc in H. rewrite Ha in H.
    rewrite forallb_forall in Ha. now apply Ha. }
  assert (Hrf : filter (fun c => negb (category_is_C U c)) r = r).
  { apply filter_all. apply forallb_forall. intros c Hin.
    destruct (Hc c Hin) as [-> | [H _]]; [reflexivity|]. now rewrite H. }
  unfold sanitize_input at 1. unfold nfkc. rewrite Hra, Hrf. exact Hj.
Qed.

Lemma sanitize_input_idempotent_on_ascii_witness :
  sanitize_input ascii_only (sanitize_input ascii_only (u "  Mia   Lee "))
  = sanitize_input ascii_only (u "  Mia   Lee ")
  /\ sanitize_input ascii_only (u "  Mia   Lee ") = u "Mia Lee".
Proof.
  split; [|reflexivity].
  apply (sanitize_input_idempotent_on_ascii ascii_only (u "  Mia   Lee ")).
  reflexivity.
Defined.

End StringProperties.

(* ================================================================== *)
(** * Further properties of StoryRequest *)
(* ================================================================== *)

Section StoryRequestProperties.
Import StoryRequest Spec More Fixtures.

(** X16.  [to_dict] loses nothing of a request but the difference between
    absent and empty notes: two requests with the same dictionary have the
    same name, age, theme and interests, and the same notes unless the
    notes of both are absent or empty. *)
Theorem to_dict_determines_request (r1 r2 : StoryRequest.t) :
  to_dict r1 = to_dict r2 ->
  character_name r1 = character_name r2
  /\ StoryRequest.age r1 = StoryRequest.age r2
  /\ StoryRequest.theme r1 = StoryRequest.theme r2
  /\ StoryRequest.interests r1 = StoryRequest.interests r2
  /\ truthy (additional_notes r1) = truthy (additional_notes r2)
  /\ (truthy (additional_notes r1) = true ->
      additional_notes r1 = additional_notes r2).
Proof.
  assert (Hinj : forall l1 l2 : list str, map VStr l1 = map VStr l2 -> l1 = l2).
  { induction l1 as [|x l1 IH]; intros [|y l2] E; try discriminate E;
      [reflexivity|].
    cbn in E. injection E as -> E. f_equal. now apply IH. }
  unfold to_dict.
  destruct (additional_notes r1) as [[|c1 n1]|];
    destruct (additional_notes r2) as [[|c2 n2]|]; cbn [truthy app];
    intros E; try discriminate E;
    injection E as E1 E2 E3 E4; try injection E4 as E4 E5;
    apply Hinj in E4 || idtac;
    repeat split; try assumption; try discriminate; try congruence.
Qed.

Lemma to_dict_determines_request_witness :
  to_dict space_space_art = to_dict space_space_art_empty_notes
  /\ StoryRequest.interests space_space_art
     = StoryRequest.interests space_space_art_empty_notes
  /\ truthy (additional_notes space_space_art)
     = truthy (additional_notes space_space_art_empty_notes).
Proof.
  split; [reflexivity|].
  destruct (to_dict_determines_request
              space_space_art space_space_art_empty_notes eq_refl)
    as (_ & _ & _ & H4 & H5 & _).
  split; assumption.
Defined.

End StoryRequestProperties.

(* ================================================================== *)
(** * Further properties of IllustrationRequest *)
(* ================================================================== *)

Section IllustrationRequestMoreFacts.
Import IllustrationRequest Spec More.
Variable U : UnicodeData.

Lemma replace_chars old new s c :
  In c (replace old new s) -> In c new \/ (In c s /\ c <> old).
Proof.
  unfold replace. rewrite in_flat_map. intros (x & Hx & Hc).
  destruct (N.eqb_spec x old) as [-> | Hne]; [now left|].
  destruct Hc as [<- | []]. right. now split.
Qed.

Lemma lstrip_chars s c : In c (lstrip U s) -> In c s.
Proof.
  induction s as [|x s IH]; cbn [lstrip]; [tauto|].
  destruct (isspace U x); [|tauto]. intros H. right. now apply IH.
Qed.

Lemma strip_chars s c : In c (strip U s) -> In c s.
Proof.
  unfold strip. intros H. apply in_rev in H. apply lstrip_chars in H.
  apply in_rev in H. now apply lstrip_chars in H.
Qed.

Lemma split_join_chars s c :
  In c (join (u " ") (split U s)) -> c = 32%N \/ In c s.
Proof.
  intros H. apply join_chars in H.
  destruct H as [[<- | []] | (w & Hw & Hc)]; [now left|].
  right. unfold split in Hw.
  now destruct (split_from_chars U _ _ _ _ Hw Hc) as [[] | H].
Qed.

Lemma sanitize_string_chars value c :
  In c (sanitize_string U value) -> ~ In c markup_chars.
Proof.
  unfold sanitize_string. intros H Hm. apply strip_chars in H.
  apply replace_chars in H. destruct H as [H | [H N39]].
  { cbn in H, Hm. intuition (subst; discriminate). }
  apply replace_chars in H. destruct H as [H | [H N34]].
  { cbn in H, Hm. intuition (subst; discriminate). }
  apply replace_chars in H. destruct H as [H | [H N62]].
  { cbn in H, Hm. intuition (subst; discriminate). }
  apply replace_chars in H. destruct H as [H | [H N60]].
  { cbn in H, Hm. intuition (subst; discriminate). }
  apply replace_chars in H. destruct H as [H | [H N38]].
  { cbn in H, Hm. intuition (subst; discriminate). }
  apply split_join_chars in H. destruct H as [-> | H].
  { cbn in Hm. intuition discriminate. }
  unfold Re.sub_class_empty in H. apply filter_In in H.
  destruct H as [_ H]. apply negb_true_iff in H.
  cbn in Hm.
  repeat (destruct Hm as [<- | Hm]; [first [congruence | discriminate H]|]).
  exact Hm.
Qed.

Lemma aspect_ratio_integers w h :
  (0 < h)%Z ->
  aspect_ratio_in_bounds w h <-> (h <= 2 * w /\ w <= 2 * h)%Z.
Proof.
  intros Hh. unfold aspect_ratio_in_bounds, aspect_ratio.
  destruct h as [|p|p]; try lia.
  unfold Qle, Qdiv, Qmult, Qinv, inject_Z. cbn [Qnum Qden].
  rewrite !Pos2Z.inj_mul. lia.
Qed.

Lemma validate_size_ok w h d :
  validate_size [w; h] = Ok d ->
  d = [w; h] /\ in_dimension_bounds w h /\ aspect_ratio_in_bounds w h
  /\ multiples_of_8 w h.
Proof.
  rewrite validate_size_cases.
  destruct (in_bounds_b w h) eqn:B; cbn [negb]; [|discriminate].
  destruct (aspect_b w h) eqn:R; cbn [negb]; [|discriminate].
  destruct (multiples_b w h) eqn:M; cbn [negb]; [|discriminate].
  intros H. injection H as <-. split; [reflexivity|].
  split; [now apply in_bounds_b_spec|].
  split; [now apply aspect_b_spec | now apply multiples_b_spec].
Qed.

Lemma validate_style_supported s :
  In s SUPPORTED_STYLES -> validate_style U s = Ok s.
Proof.
  intros H. cbn in H.
  repeat (destruct H as [<- | H]; [reflexivity|]). destruct H.
Qed.

End IllustrationRequestMoreFacts.

Section IllustrationRequestProperties.
Import IllustrationRequest Spec More.

(** X17.  Whatever the input, the result of [sanitize_string] holds no
    angle bracket, no single or double quote, no brace, no square bracket
    and no backslash. *)
Theorem sanitize_string_has_no_markup (U : UnicodeData) (value : str) :
  forall c, In c (sanitize_string U value) -> ~ In c markup_chars.
Proof. intros c. apply sanitize_string_chars. Qed.

Lemma sanitize_string_has_no_markup_witness :
  In 104%N (sanitize_string ascii_only (u "<b>hi</b> {there}"))
  /\ ~ In 104%N markup_chars.
Proof.
  split; [vm_compute; auto|].
  apply (sanitize_string_has_no_markup
           ascii_only (u "<b>hi</b> {there}") 104%N).
  vm_compute; auto.
Defined.

(** X18.  Every constructed IllustrationRequest keeps the given size and
    face flag, and satisfies: both dimensions from 256 to 1024 and
    multiples of 8, neither more than twice the other; a style of the
    enumeration; a prompt that is the sanitized form of the stripped input
    and so free of markup characters. *)
Theorem constructed_illustration_request_invariants
        (U : UnicodeData) (prompt0 style0 : str) (w h : Z)
        (enhance : bool) (r : IllustrationRequest.t) :
  IllustrationRequest.new U prompt0 style0 (w, h) enhance = Ok r ->
  size r = [w; h]
  /\ (256 <= w <= 1024 /\ 256 <= h <= 1024)%Z
  /\ (w mod 8 = 0 /\ h mod 8 = 0)%Z
  /\ (h <= 2 * w /\ w <= 2 * h)%Z
  /\ In (style r) SUPPORTED_STYLES
  /\ enhance_faces r = enhance
  /\ prompt r = sanitize_string U (strip U prompt0)
  /\ (forall c, In c (prompt r) -> ~ In c markup_chars).
Proof.
  unfold IllustrationRequest.new. cbn [fst snd].
  destruct ((MIN_PROMPT_LENGTH <=? len prompt0)%Z
            && (len prompt0 <=? MAX_PROMPT_LENGTH)%Z).
  2:{ cbn [bind]. destruct (validate_style U style0); cbn [bind];
        [|discriminate].
      destruct (validate_size [w; h]); cbn [bind]; discriminate. }
  destruct (validate_prompt U prompt0) as [p|] eqn:Hp; cbn [bind];
    [|discriminate].
  destruct (validate_style U style0) as [s|] eqn:Hs; cbn [bind];
    [|discriminate].
  destruct (validate_size [w; h]) as [d|] eqn:Hd; cbn [bind];
    [|discriminate].
  intros H. injection H as <-. cbn [size style enhance_faces prompt].
  destruct (validate_size_ok w h d Hd) as (-> & Hb & Hr & Hm).
  assert (Hpp : p = sanitize_string U (strip U prompt0)).
  { unfold validate_prompt, validate_string_length in Hp.
    destruct prompt0 as [|c0 p0]; [discriminate|].
    destruct (negb _); [discriminate|]. now injection Hp as <-. }
  split; [reflexivity|]. split; [exact Hb|]. split; [exact Hm|].
  split; [apply (aspect_ratio_integers w h); [unfold in_dimension_bounds in Hb; lia | exact Hr]|].
  split; [exact (proj1 (validate_style_inv U _ _ Hs))|].
  split; [reflexivity|]. split; [exact Hpp|].
  intros c. rewrite Hpp. apply sanitize_string_chars.
Qed.

Lemma constructed_illustration_request_invariants_witness :
  exists r,
    IllustrationRequest.new ascii_only
      (u "A <b>friendly</b> dragon reading books") (u "Children's Book")
      (512, 256)%Z true = Ok r
    /\ size r = [512; 256]%Z
    /\ prompt r = u "A bfriendly/b dragon reading books".
Proof.
  assert (H : exists r,
             IllustrationRequest.new ascii_only
               (u "A <b>friendly</b> dragon reading books")
               (u "Children's Book") (512, 256)%Z true = Ok r)
    by (eexists; reflexivity).
  destruct H as [r H]. exists r. split; [exact H|].
  destruct (constructed_illustration_request_invariants
              ascii_only _ _ _ _ _ r H) as (Hs & _ & _ & _ & _ & _ & Hp & _).
  split; [exact Hs | exact Hp].
Defined.

(** X19.  [validate_style] is idempotent: the style it returns is accepted
    again and returned unchanged. *)
Theorem validate_style_idempotent (U : UnicodeData) (value s : str) :
  validate_style U value = Ok s -> validate_style U s = Ok s.
Proof.
  intros H. apply validate_style_supported.
  exact (proj1 (validate_style_inv U _ _ H)).
Qed.

Lemma validate_style_idempotent_witness :
  validate_style ascii_only (u "children's book") = Ok (u "children's book").
Proof.
  apply (validate_style_idempotent ascii_only (u "Children's Book")).
  reflexivity.
Defined.

End IllustrationRequestProperties.

(* ================================================================== *)
(** * Properties of the validation utilities *)
(* ================================================================== *)

Section ValidationUtilsFacts.
Import ErrorHandler Validators ValidationUtils Spec More.

Lemma check_content_safety_invalid_has_details U keywords v text :
  is_valid (check_content_safety_over U keywords v text) = false ->
  details (check_content_safety_over U keywords v text) <> None.
Proof.
  unfold check_content_safety_over. rewrite scan_keywords_verdict.
  unfold first_match_verdict.
  destruct (find _ (ordered_checks U keywords v)) as [c|] eqn:E;
    [|discriminate].
  intros _. apply find_some in E. destruct E as [Hin _].
  unfold ordered_checks in Hin. rewrite !in_app_iff, !in_map_iff in Hin.
  destruct Hin as [(k & <- & _) | [(p & <- & _) | (p & <- & _)]];
    discriminate.
Qed.

Lemma elapsed_since {S : Type} (w : World S) (elapsed : Q) :
  ((time_time (time_sleep elapsed w) - time_time w) * inject_Z 1000
   == elapsed * inject_Z 1000)%Q.
Proof. unfold time_time, time_sleep. cbn [clock]. ring. Qed.

Lemma timeout_check_within {S : Type} (w : World S) (elapsed : Q) :
  within_timeout elapsed ->
  negb (Qle_bool ((time_time (time_sleep elapsed w) - time_time w)
                  * inject_Z 1000)
                 (inject_Z VALIDATION_TIMEOUT)) = false.
Proof.
  intros H. apply negb_false_iff, Qle_bool_iff.
  rewrite elapsed_since. exact H.
Qed.

Lemma timeout_check_late {S : Type} (w : World S) (elapsed : Q) :
  ~ within_timeout elapsed ->
  negb (Qle_bool ((time_time (time_sleep elapsed w) - time_time w)
                  * inject_Z 1000)
                 (inject_Z VALIDATION_TIMEOUT)) = true.
Proof.
  intros H. apply negb_true_iff.
  destruct (Qle_bool _ _) eqn:E; [|reflexivity].
  exfalso. apply H. apply Qle_bool_iff in E.
  rewrite elapsed_since in E. exact E.
Qed.

End ValidationUtilsFacts.

Section ValidationUtilsProperties.
Import ErrorHandler Validators ValidationUtils Spec More.

Lemma story_prompt_cases
        (U : UnicodeData) (self : ContentValidator) (prompt : str) :
  let p := strip U prompt in
  let r := validate_story_prompt U self prompt in
  (is_valid r = true <->
   (10 <= len p <= 4000)%Z /\ is_valid (_check_content_safety U self p) = true)
  /\ ((len p < 10)%Z -> message r = u "Prompt too short")
  /\ (is_valid r = false -> details r <> None).
Proof.
  intros p r. unfold r, validate_story_prompt. fold p.
  unfold MIN_PROMPT_LENGTH, MAX_PROMPT_LENGTH.
  destruct (Z.ltb_spec (len p) 10) as [Hs | Hs].
  { cbn [is_valid message details]. split; [|split].
    - split; [discriminate | lia].
    - reflexivity.
    - discriminate. }
  rewrite Z.gtb_ltb. destruct (Z.ltb_spec 4000 (len p)) as [Hl | Hl].
  { cbn [is_valid message details]. split; [|split].
    - split; [discriminate | lia].
    - lia.
    - discriminate. }
  destruct (is_valid (_check_content_safety U self p)) eqn:E; cbn [negb].
  - cbn [is_valid details]. split; [|split].
    + split; [intros _; split; [lia | reflexivity] | reflexivity].
    + lia.
    + discriminate.
  - split; [|split].
    + rewrite E. split; [discriminate | intros [_ H]; discriminate H].
    + lia.
    + intros _. now apply check_content_safety_invalid_has_details.
Qed.

(** X20.  [validate_story_prompt] accepts a prompt exactly when its
    stripped form has 10 to 4000 characters and passes the content safety
    check.  The length is judged first: a stripped prompt under 10
    characters is reported as too short whatever it contains.  Every
    rejection carries a [details] map. *)
Theorem story_prompt_verdicts
        (U : UnicodeData) (self : ContentValidator) (prompt : str) :
  let p := strip U prompt in
  let r := validate_story_prompt U self prompt in
  (is_valid r = true <->
   (10 <= len p <= 4000)%Z /\ is_valid (_check_content_safety U self p) = true)
  /\ ((len p < 10)%Z -> message r = u "Prompt too short")
  /\ (is_valid r = false -> details r <> None).
Proof. apply story_prompt_cases. Qed.

Lemma story_prompt_verdicts_witness :
  message (validate_story_prompt ascii_only Validators.__init__
                                 (u "  weapon   "))
  = u "Prompt too short".
Proof.
  apply (story_prompt_verdicts ascii_only Validators.__init__
                               (u "  weapon   ")).
  cbn. lia.
Defined.

(** X21.  The age utility and the request model agree on the accepted
    ages: an age outside 3..12 is rejected by both, with the range error
    of each, however long the utility took; an age within 3..12 passes
    both, unless the utility took more than 5000 ms, in which case its
    result is replaced by the timeout error. *)
Theorem age_validators_agree
        {S : Type} (str_of_float : Q -> str) (elapsed : Q) (age : Z)
        (self : StoryRequest.t) (w : World S) :
  StoryRequest.age self = age ->
  let w1 := time_sleep elapsed w in
  ((age < 3 \/ 12 < age)%Z ->
   (exists e, validate_age str_of_float elapsed age w = (Raise e, w1)
              /\ exc_str e = u "Age out of acceptable range")
   /\ StoryRequest.validate_age self = Raise (age_error age))
  /\
  ((3 <= age <= 12)%Z ->
   StoryRequest.validate_age self = Ok true
   /\ (within_timeout elapsed ->
       validate_age str_of_float elapsed age w = (Ok age, w1))
   /\ (~ within_timeout elapsed ->
       exists e, validate_age str_of_float elapsed age w = (Raise e, w1)
                 /\ exc_str e = u "Validation timeout exceeded")).
Proof.
  intros Ha w1. unfold validate_age, timeout, validate_age_body, AGE_RANGE.
  fold w1. split.
  - intros Hout. split.
    + assert (E : (age <? 3)%Z || (age >? 12)%Z = true).
      { rewrite Z.gtb_ltb. apply orb_true_iff. rewrite !Z.ltb_lt. lia. }
      rewrite E. eexists. split; reflexivity.
    + subst age. now apply validate_age_out_of_range.
  - intros Hin.
    assert (E : (age <? 3)%Z || (age >? 12)%Z = false).
    { rewrite Z.gtb_ltb. apply orb_false_iff. rewrite !Z.ltb_ge. lia. }
    rewrite E. split; [|split].
    + subst age. now apply validate_age_in_range.
    + intros Ht. unfold w1. now rewrite timeout_check_within.
    + intros Ht. unfold w1. rewrite timeout_check_late by assumption.
      eexists. split; reflexivity.
Qed.

Lemma age_validators_agree_witness :
  (exists e, validate_age str_of_float0 (1 # 10) 2 Fixtures.world0
             = (Raise e, time_sleep (1 # 10) Fixtures.world0)
             /\ exc_str e = u "Age out of acceptable range")
  /\ validate_age str_of_float0 (1 # 10) 8 Fixtures.world0
     = (Ok 8%Z, time_sleep (1 # 10) Fixtures.world0)
  /\ exists e, validate_age str_of_float0 (6 # 1) 8 Fixtures.world0
               = (Raise e, time_sleep (6 # 1) Fixtures.world0)
               /\ exc_str e = u "Validation timeout exceeded".
Proof.
  split; [|split].
  - apply (proj1 (age_validators_agree str_of_float0 (1 # 10) 2 (aged 2)
                    Fixtures.world0 eq_refl)).
    lia.
  - apply (proj2 (age_validators_agree str_of_float0 (1 # 10) 8 (aged 8)
                    Fixtures.world0 eq_refl));
      [lia | discriminate].
  - apply (proj2 (age_validators_agree str_of_float0 (6 # 1) 8 (aged 8)
                    Fixtures.world0 eq_refl)); [lia|].
    intros H. apply H. reflexivity.
Defined.

(** X22.  Within the timeout, the dimension utility accepts a pair exactly
    when both numbers are multiples of 512 and at most 2048; it has no
    lower bound, so zero and negative multiples pass.  The sizes that both
    it and the request model accept are those with each dimension 512 or
    1024. *)
Theorem dimension_validators_meet
        {S : Type} (str_of_float : Q -> str) (elapsed : Q) (width height : Z)
        (w : World S) :
  within_timeout elapsed ->
  let accepted :=
    validate_image_dimensions str_of_float elapsed [width; height] w
    = (Ok [width; height], time_sleep elapsed w) in
  (accepted <->
   (width mod 512 = 0 /\ height mod 512 = 0
    /\ width <= 2048 /\ height <= 2048)%Z)
  /\ (accepted
      /\ IllustrationRequest.validate_size [width; height]
         = Ok [width; height]
      <-> (width = 512 \/ width = 1024)%Z /\ (height = 512 \/ height = 1024)%Z).
Proof.
  intros Ht accepted.
  assert (Hacc : accepted <->
                 (width mod 512 = 0 /\ height mod 512 = 0
                  /\ width <= 2048 /\ height <= 2048)%Z).
  { unfold accepted, validate_image_dimensions, timeout,
      validate_image_dimensions_body, base_resolution.
    destruct (Z.eqb_spec (width mod 512) 0) as [Hw | Hw];
      destruct (Z.eqb_spec (height mod 512) 0) as [Hh | Hh]; cbn [negb orb];
      try (split; [discriminate | lia]).
    rewrite !Z.gtb_ltb.
    destruct (Z.ltb_spec 2048 width) as [Hw2 | Hw2];
      destruct (Z.ltb_spec 2048 height) as [Hh2 | Hh2]; cbn [orb];
      try (split; [discriminate | lia]).
    rewrite timeout_check_within by assumption.
    split; [intros _; lia | reflexivity]. }
  split; [exact Hacc|].
  rewrite Hacc, validate_size_cases. split.
  - intros [(Hw & Hh & _) Hs].
    destruct (in_bounds_b width height) eqn:B; cbn [negb] in Hs;
      [|discriminate].
    apply in_bounds_b_spec in B. unfold in_dimension_bounds in B.
    clear Hs Hacc accepted. Z.div_mod_to_equations. lia.
  - intros [[-> | ->] [-> | ->]]; (split; [cbn; lia | reflexivity]).
Qed.

Lemma dimension_validators_meet_witness :
  validate_image_dimensions str_of_float0 (1 # 10) [0; -512]%Z Fixtures.world0
  = (Ok [0; -512]%Z, time_sleep (1 # 10) Fixtures.world0)
  /\ validate_image_dimensions str_of_float0 (1 # 10) [512; 1024]%Z
                               Fixtures.world0
     = (Ok [512; 1024]%Z, time_sleep (1 # 10) Fixtures.world0).
Proof.
  split.
  - apply (proj1 (dimension_validators_meet
                    str_of_float0 (1 # 10) 0 (-512) Fixtures.world0
                    ltac:(discriminate))).
    cbn. lia.
  - apply (proj1 (dimension_validators_meet
                    str_of_float0 (1 # 10) 512 1024 Fixtures.world0
                    ltac:(discriminate))).
    cbn. lia.
Defined.

End ValidationUtilsProperties.

(* ================================================================== *)
(** * Properties of the Stable Diffusion service *)
(* ================================================================== *)

Section StableDiffusionFacts.
Import ErrorHandler StableDiffusionService More.
Context {S : Type}.

(** The Stable Diffusion handler answers at once, with the status its
    mapping gives for the exact class of the error. *)
Lemma stable_diffusion_handler_answers
      (e : PyExc) (context : ErrorContext) (w : World S) :
  exists http,
    handle_stable_diffusion_error e context w
    = (Ok http, snd (uuid4 w), [EvCall 0])
    /\ status_code http
       = fst (mapping_get stable_diffusion_error_mapping (exc_type e)
                          (500%Z, ERROR_MESSAGES_at "API_ERROR"))
    /\ In (status_code http) stable_diffusion_statuses.
Proof.
  unfold handle_stable_diffusion_error, retry,
    handle_stable_diffusion_error_body.
  change (range ErrorHandler.MAX_RETRIES) with [0; 1; 2]%nat.
  cbn [retry_loop uuid4].
  destruct (exc_type e);
    cbn [mapping_get stable_diffusion_error_mapping ExcClass_eqb];
    (eexists; split; [reflexivity|]; split; [reflexivity|]; cbn; tauto).
Qed.

(** What the generation loop can do in its three rounds. *)
Lemma generation_loop_cases
      (call : nat -> Callable (S := S) bytes) (w : World S) :
  let '(r, _, evs) :=
    generation_loop call (range StableDiffusionService.MAX_RETRIES) w in
  r <> None /\ In evs generation_traces
  /\ ((exists e, r = Some (Raise e)) -> evs = three_calls).
Proof.
  change (range StableDiffusionService.MAX_RETRIES) with [0; 1; 2]%nat.
  cbn [generation_loop].
  destruct (call 0%nat w) as [[i0|e0] w0].
  { split; [discriminate|]. split; [cbn; tauto|].
    intros [e He]; discriminate He. }
  change (Z.of_nat 0 =? StableDiffusionService.MAX_RETRIES - 1)%Z with false.
  cbn iota.
  destruct (call 1%nat _) as [[i1|e1] w1].
  { split; [discriminate|]. split; [cbn; tauto|].
    intros [e He]; discriminate He. }
  change (Z.of_nat 1 =? StableDiffusionService.MAX_RETRIES - 1)%Z with false.
  cbn iota.
  destruct (call 2%nat _) as [[i2|e2] w2].
  { split; [discriminate|]. split; [cbn; tauto|].
    intros [e He]; discriminate He. }
  change (Z.of_nat 2 =? StableDiffusionService.MAX_RETRIES - 1)%Z with true.
  cbn iota.
  split; [discriminate|]. split; [cbn; tauto|]. reflexivity.
Qed.

End StableDiffusionFacts.

Section StableDiffusionProperties.
Import ErrorHandler StableDiffusionService IllustrationRequest.
Import Spec More Fixtures.

(** X25.  Every style that [validate_style] lets through has an entry of
    its own in [STYLE_PROMPTS]: [format_prompt] never falls back to the
    empty default for a validated style, and the formatted prompt is the
    user prompt followed by that entry and the two fixed quality
    suffixes. *)
Theorem validated_style_has_style_prompt
        (U : UnicodeData) (prompt style validated : str) :
  validate_style U style = Ok validated ->
  exists style_prompt,
    In (validated, style_prompt) STYLE_PROMPTS
    /\ style_prompt <> []
    /\ format_prompt U prompt validated
       = prompt ++ u ", " ++ style_prompt
           ++ u ", high quality, detailed, professional"
           ++ u ", "
           ++ u "masterpiece, highly detailed, best quality, professional".
Proof.
  intros H. apply (validate_style_inv U style validated) in H.
  destruct H as [H _].
  unfold format_prompt. rewrite <- !app_assoc.
  cbn [SUPPORTED_STYLES In] in H.
  repeat (destruct H as [<- | H];
          [eexists; split;
           [|split; [|vm_compute str_dict_get; reflexivity]];
           [cbn; tauto | discriminate]|]).
  destruct H.
Qed.

Lemma validated_style_has_style_prompt_witness :
  exists style_prompt,
    In (u "watercolor", style_prompt) STYLE_PROMPTS
    /\ style_prompt <> []
    /\ format_prompt ascii_only (u "A friendly dragon") (u "watercolor")
       = u "A friendly dragon" ++ u ", " ++ style_prompt
           ++ u ", high quality, detailed, professional"
           ++ u ", "
           ++ u "masterpiece, highly detailed, best quality, professional".
Proof.
  apply (validated_style_has_style_prompt
           ascii_only (u "A friendly dragon") (u "WaterColor")
           (u "watercolor")).
  reflexivity.
Defined.





End StableDiffusionProperties.

(* ================================================================== *)
(** * Properties of validate_string *)
(* ================================================================== *)

Section ValidateStringProperties.
Import ErrorHandler Validators ValidationUtils Spec More Fixtures.

Lemma name_pattern_match_length (U : UnicodeData) (s : str) :
  NAME_PATTERN_match U s = true ->
  (1 <= len s <= 50)%Z
  \/ (len s <= 51)%Z /\ exists p, s = p ++ [10%N] /\ (1 <= len p <= 50)%Z.
Proof.
  unfold NAME_PATTERN_match, Re.match_class_repeat, len. intros H.
  apply orb_true_iff in H. destruct H as [H | H].
  - left. apply andb_true_iff in H. destruct H as [H _].
    apply andb_true_iff in H. destruct H as [H1 H2].
    apply Nat.leb_le in H1, H2. lia.
  - right. destruct (rev s) as [|c p] eqn:E; [discriminate|].
    destruct c as [|q]; [discriminate|].
    do 4 (try destruct q as [q|q|]); try discriminate.
    apply andb_true_iff in H. destruct H as [H _].
    apply andb_true_iff in H. destruct H as [H1 H2].
    apply Nat.leb_le in H1, H2.
    assert (Hs : s = rev p ++ [10%N]).
    { rewrite <- (rev_involutive s), E. reflexivity. }
    split.
    + rewrite Hs, length_app. cbn [List.length]. lia.
    + exists (rev p). split; [exact Hs | lia].
Qed.

Lemma match_class_repeat_ext (f g : char -> bool) (lo hi : nat) (s : str) :
  (forall c, f c = g c) ->
  Re.match_class_repeat f lo hi s = Re.match_class_repeat g lo hi s.
Proof.
  intros H.
  assert (E : forall t, forallb f t = forallb g t).
  { induction t as [|c t IH]; [reflexivity|]. cbn. now rewrite H, IH. }
  unfold Re.match_class_repeat. rewrite E.
  destruct (rev s) as [|c p]; [reflexivity|].
  destruct c as [|q]; [reflexivity|].
  do 4 (try destruct q as [q|q|]); try reflexivity. now rewrite E.
Qed.

(** X31.  The [NAME_PATTERN] of [validators.py] is accepted by
    [re.compile], unlike the patterns of [story_request.py], and the
    compiled pattern matches exactly what [NAME_PATTERN_match] accepts:
    1 to 50 characters, each an ASCII letter or digit, a whitespace
    character or a hyphen, up to the end or to a final line feed. *)
Theorem validators_name_pattern_compiles (U : UnicodeData) (s : str) :
  exists p,
    Re.compile NAME_PATTERN = Some (Ok p)
    /\ Re.min_repeat p = 1%nat /\ Re.max_repeat p = 50%nat
    /\ Re.pattern_match U p s = NAME_PATTERN_match U s
    /\ Re.compile StoryRequest.NAME_PATTERN_source
       = Some (Raise bad_escape_p).
Proof.
  eexists. split; [vm_compute; reflexivity|].
  split; [reflexivity|]. split; [reflexivity|].
  split; [|vm_compute; reflexivity].
  unfold Re.pattern_match, NAME_PATTERN_match. cbn [Re.items Re.min_repeat
                                                   Re.max_repeat].
  apply match_class_repeat_ext. intros c.
  unfold Re.class_matches, name_char, ascii_lower_case, ascii_upper_case.
  cbn [existsb Re.item_matches].
  rewrite orb_false_r, !orb_assoc. reflexivity.
Qed.

(** X28.  Without [allow_special_chars], [validate_string] returns the
    NFKC form of the stripped input and only when it has between 1 and 51
    characters, whatever [max_length] is (4000 by default): the name
    pattern caps the length at 50, or at 51 for a value that ends in a
    line feed.  The result also lies within the given bounds. *)
Theorem validate_string_capped_by_name_pattern
        {S : Type} (U : UnicodeData) (str_of_float : Q -> str)
        (elapsed : Q) (value : str) (min_length max_length : Z)
        (w w' : World S) (v : str) :
  validate_string str_of_float U elapsed value min_length max_length false w
  = (Ok v, w') ->
  v = nfkc U (strip U value)
  /\ (min_length <= len v <= max_length)%Z
  /\ (1 <= len v <= 51)%Z
  /\ (50 < len v -> exists p, v = p ++ [10%N])%Z.
Proof.
  unfold validate_string, timeout, validate_string_body.
  set (n := nfkc U (strip U value)).
  destruct ((len n <? min_length)%Z || (len n >? max_length)%Z) eqn:El;
    [discriminate|].
  cbn [negb andb].
  destruct (NAME_PATTERN_match U n) eqn:Em; cbn [negb]; [|discriminate].
  destruct (negb (Qle_bool _ _)); [discriminate|].
  intros H. injection H as <- _.
  apply orb_false_iff in El. destruct El as [E1 E2].
  apply Z.ltb_ge in E1. rewrite Z.gtb_ltb in E2. apply Z.ltb_ge in E2.
  split; [reflexivity|]. split; [lia|].
  destruct (name_pattern_match_length U n Em) as [Hl | (Hl & p & Hp & Hpl)].
  - split; [lia|]. intros Hlt. lia.
  - split.
    + split; [|lia]. rewrite Hp. unfold len in *. rewrite length_app.
      cbn [List.length]. lia.
    + intros _. now exists p.
Qed.

Lemma validate_string_capped_by_name_pattern_witness :
  exists w',
    validate_string str_of_float0 ascii_only 0%Q (u "  Mia Lee ") 1
                    MAX_PROMPT_LENGTH false world0
    = (Ok (u "Mia Lee"), w')
    /\ (1 <= len (u "Mia Lee") <= 51)%Z.
Proof.
  assert (H : exists w',
             validate_string str_of_float0 ascii_only 0%Q (u "  Mia Lee ") 1
                             MAX_PROMPT_LENGTH false world0
             = (Ok (u "Mia Lee"), w')) by (eexists; reflexivity).
  destruct H as [w' H]. exists w'. split; [exact H|].
  apply (validate_string_capped_by_name_pattern
           ascii_only str_of_float0 0%Q (u "  Mia Lee ") 1 MAX_PROMPT_LENGTH
           world0 w' (u "Mia Lee") H).
Defined.

End ValidateStringProperties.
